(** * Event detection and lag extraction ([hydro_analysis_utils.py])

    A shallow embedding of [find_events_and_lags] and of the pandas
    operations it is written with, followed by the properties of the
    event extractor.

    Conventions of the embedding:
    - a date of the daily index is its day number counted from 1970-01-01,
      a [Z]; adding [pd.Timedelta(days=n)] is [+ n] and [(a - b).days] is
      [a - b].  pandas stores both in 64 bits of nanoseconds and raises
      when a day count, a date or their sum leaves that range; the two loops
      are the source's only for frames in date order and day counts inside
      the range ([in_timestamp_range] below), and the properties that say
      that the call returns assume both;
    - a cell of the input frame is an [option Q]: [None] is a missing value
      (NaN), [Some x] a measured value.  Measured values are rationals and
      the arithmetic on them is exact: rounding of binary floating point is
      not part of the model;
    - the threshold is an [option Q] as well, [None] being the NaN that
      [Series.quantile] gives on an empty series;
    - a call that can raise returns an [outcome]. *)

From Stdlib Require Import ZArith QArith Qround List Bool Sorted Lia Lqa.
Import ListNotations.

Local Open Scope Z_scope.

(** ** Outcomes: a value or a raised Python exception *)

Inductive exn : Type :=
| ValueError   (* quantile: percentile outside [0, 1]; idxmax of an empty series *)
| KeyError.    (* .loc with a label that is not in the index *)

Inductive outcome (A : Type) : Type :=
| Returned (a : A)
| Raised (e : exn).

Arguments Returned {A} a.
Arguments Raised {A} e.

Definition bind {A B : Type} (m : outcome A) (k : A -> outcome B) : outcome B :=
  match m with
  | Returned a => k a
  | Raised e => Raised e
  end.

Notation "x <- m ;; k" := (bind m (fun x => k))
  (at level 61, m at next level, right associativity).

Definition raises {A : Type} (m : outcome A) : bool :=
  match m with
  | Returned _ => false
  | Raised _ => true
  end.

(** ** The data frame *)

(** A row of [df]: the date of the index and the two columns that
    [find_events_and_lags] reads. *)
Record row : Type := mkRow {
  row_date : Z;
  row_precip : option Q;
  row_discharge : option Q
}.

(** A row of [working]: both columns present. *)
Record rec : Type := mkRec {
  date : Z;
  precip : Q;
  discharge : Q
}.

(** [df[[precip_col, 'Discharge (cfs)']].dropna()] *)
Fixpoint dropna (df : list row) : list rec :=
  match df with
  | [] => []
  | r :: df' =>
      match row_precip r, row_discharge r with
      | Some p, Some d => mkRec (row_date r) p d :: dropna df'
      | _, _ => dropna df'
      end
  end.

(** ** Comparisons of floats *)

Definition Qlt_bool (x y : Q) : bool := negb (Qle_bool y x).

(** [x >= threshold]; a comparison with NaN is false. *)
Definition ge_threshold (x : Q) (threshold : option Q) : bool :=
  match threshold with
  | Some t => Qle_bool t x
  | None => false
  end.

(** [a <= b] on two thresholds; a comparison with NaN is false. *)
Definition threshold_le (a b : option Q) : bool :=
  match a, b with
  | Some x, Some y => Qle_bool x y
  | _, _ => false
  end.

(** ** [Series.quantile(q)], default [interpolation='linear'] *)

Fixpoint insert_sorted (x : Q) (l : list Q) : list Q :=
  match l with
  | [] => [x]
  | y :: l' => if Qle_bool x y then x :: l else y :: insert_sorted x l'
  end.

Fixpoint sort_values (l : list Q) : list Q :=
  match l with
  | [] => []
  | x :: l' => insert_sorted x (sort_values l')
  end.

(** Linear interpolation between the two order statistics around the
    virtual index [(n - 1) * q]. *)
Definition interpolate (sorted : list Q) (q : Q) : Q :=
  let n := Z.of_nat (length sorted) in
  let h := (inject_Z (n - 1) * q)%Q in
  let lo := Qfloor h in
  let hi := Z.min (lo + 1) (n - 1) in
  let gamma := (h - inject_Z lo)%Q in
  let a := nth (Z.to_nat lo) sorted 0%Q in
  let b := nth (Z.to_nat hi) sorted 0%Q in
  (a + (b - a) * gamma)%Q.

(** [validate_percentile] raises [ValueError] unless [0 <= q <= 1]; the
    quantile of an empty series is NaN. *)
Definition quantile (values : list Q) (q : Q) : outcome (option Q) :=
  if Qle_bool 0 q && Qle_bool q 1 then
    match values with
    | [] => Returned None
    | _ :: _ => Returned (Some (interpolate (sort_values values) q))
    end
  else Raised ValueError.

(** ** Label based selection on the date index *)

(** [working.loc[start:end]]: on an index in increasing date order the label
    slice is the run of rows whose date lies in [start, end], both ends
    included. *)
Definition loc_slice (working : list rec) (start end_ : Z) : list rec :=
  filter (fun r => (start <=? date r) && (date r <=? end_)) working.

(** [frame.loc[d, col]]: the cell of the row labelled [d]. *)
Fixpoint loc_row (working : list rec) (d : Z) : outcome rec :=
  match working with
  | [] => Raised KeyError
  | r :: working' => if date r =? d then Returned r else loc_row working' d
  end.

(** [Series.idxmax()]: the label of the first occurrence of the maximum. *)
Fixpoint idxmax_from (best : rec) (rest : list rec) : rec :=
  match rest with
  | [] => best
  | r :: rest' =>
      if Qlt_bool (discharge best) (discharge r)
      then idxmax_from r rest'
      else idxmax_from best rest'
  end.

Definition idxmax (window : list rec) : outcome Z :=
  match window with
  | [] => Raised ValueError
  | r :: rest => Returned (date (idxmax_from r rest))
  end.

(** [(window[precip_col] >= threshold).sum()] *)
Definition count_sig (window : list rec) (threshold : option Q) : Z :=
  Z.of_nat (length (filter (fun r => ge_threshold (precip r) threshold) window)).

(** ** [find_events_and_lags] *)

Record event : Type := mkEvent {
  event_date : Z;
  peak_date : Z;
  lag_days : Z;
  peak_discharge : Q;
  rain_amount : Q;
  n_sig_days_in_window : Z
}.

(** The first loop: [skip_until] is the cursor, [None] when unset.  The sum
    [date r + min_gap_days] is the one of line 33 as long as it stays in the
    range of a timestamp. *)
Fixpoint scan_starts (rows : list rec) (threshold : option Q) (min_gap_days : Z)
    (event_starts : list Z) (skip_until : option Z) : list Z :=
  match rows with
  | [] => event_starts
  | r :: rows' =>
      let skip :=
        match skip_until with
        | Some u => date r <=? u
        | None => false
        end in
      if skip then
        scan_starts rows' threshold min_gap_days event_starts skip_until
      else if ge_threshold (precip r) threshold then
        scan_starts rows' threshold min_gap_days
          (event_starts ++ [date r]) (Some (date r + min_gap_days))
      else
        scan_starts rows' threshold min_gap_days event_starts skip_until
  end.

(** The body of the second loop for one start: [None] is [continue],
    [Some ev] the dictionary appended to [events].  The sum
    [start + window_days] is the one of line 38 as long as it stays in the
    range of a timestamp. *)
Definition event_of (working : list rec) (threshold : option Q)
    (window_days : Z) (require_single_day : bool) (start : Z)
    : outcome (option event) :=
  let end_ := start + window_days in
  let window := loc_slice working start end_ in
  match window with
  | [] => Returned None
  | _ :: _ =>
      let n_sig := count_sig window threshold in
      if require_single_day && (1 <? n_sig) then Returned None
      else
        pk <- idxmax window ;;
        let lag := pk - start in
        peak_row <- loc_row window pk ;;
        start_row <- loc_row working start ;;
        Returned (Some (mkEvent start pk lag (discharge peak_row)
                                (precip start_row) n_sig))
  end.

Fixpoint build_events (working : list rec) (threshold : option Q)
    (window_days : Z) (require_single_day : bool)
    (starts : list Z) (events : list event) : outcome (list event) :=
  match starts with
  | [] => Returned events
  | start :: starts' =>
      r <- event_of working threshold window_days require_single_day start ;;
      match r with
      | None =>
          build_events working threshold window_days require_single_day
            starts' events
      | Some ev =>
          build_events working threshold window_days require_single_day
            starts' (events ++ [ev])
      end
  end.

Definition positive_precip (working : list rec) : list Q :=
  map precip (filter (fun r => Qlt_bool 0 (precip r)) working).

Definition event_starts_of (working : list rec) (threshold : option Q)
    (min_gap_days : Z) : list Z :=
  scan_starts working threshold min_gap_days [] None.

Definition find_events_and_lags (df : list row) (q : Q)
    (min_gap_days window_days : Z) (require_single_day : bool)
    : outcome (list event * option Q) :=
  let working := dropna df in
  threshold <- quantile (positive_precip working) q ;;
  let event_starts := event_starts_of working threshold min_gap_days in
  events <- build_events working threshold window_days require_single_day
              event_starts [] ;;
  Returned (events, threshold).

(** ** Valid inputs *)

Fixpoint increasing (l : list Z) : bool :=
  match l with
  | [] => true
  | x :: l' =>
      match l' with
      | [] => true
      | y :: _ => (x <? y) && increasing l'
      end
  end.

(** One record per day in date order, [q] in the open unit interval and
    non-negative day counts. *)
Definition valid_input (df : list row) (q : Q) (min_gap_days window_days : Z) : Prop :=
  increasing (map row_date df) = true /\
  (0 < q)%Q /\ (q < 1)%Q /\ 0 <= min_gap_days /\ 0 <= window_days.

(** The days that a nanosecond [pd.Timestamp] at midnight and a nanosecond
    [pd.Timedelta] can hold: 2^63 nanoseconds are a little under 106752
    days, on either side of 1970-01-01. *)
Definition max_days : Z := 106751.

Definition representable (d : Z) : bool :=
  (- max_days <=? d) && (d <=? max_days).

(** No date of the frame, neither day count, and no date moved by a day
    count leaves the range: [pd.Timedelta(days=...)] and the two additions of
    lines 33 and 38 raise nothing. *)
Definition in_timestamp_range (df : list row) (min_gap_days window_days : Z)
    : bool :=
  representable min_gap_days && representable window_days &&
  forallb (fun r => representable (row_date r) &&
                    representable (row_date r + min_gap_days) &&
                    representable (row_date r + window_days)) df.

(** ** Invariants of the two loops *)

(** Consecutive dates more than [min_gap_days] apart. *)
Fixpoint separated (min_gap_days : Z) (l : list Z) : Prop :=
  match l with
  | [] => True
  | s :: l' =>
      match l' with
      | [] => True
      | s' :: _ => min_gap_days < s' - s /\ separated min_gap_days l'
      end
  end.

(** The cursor is unset before the first start and afterwards stands
    [min_gap_days] after the last one. *)
Definition cursor_ok (min_gap_days : Z) (event_starts : list Z)
    (skip_until : option Z) : Prop :=
  match skip_until with
  | None => event_starts = []
  | Some u => exists pre s, event_starts = pre ++ [s] /\ u = s + min_gap_days
  end.

(** A date of the index of [working]. *)
Definition present (working : list rec) (s : Z) : Prop :=
  exists r, In r working /\ date r = s.


(** Two dates more than [min_gap_days] apart, the earlier one first. *)
Definition apart (min_gap_days : Z) (a b : Z) : Prop := min_gap_days < b - a.

(** The test of the second loop on the window of a start: the start is kept
    unless [require_single_day and n_sig > 1]. *)
Definition survives (working : list rec) (threshold : option Q)
    (window_days : Z) (require_single_day : bool) (start : Z) : bool :=
  negb (require_single_day &&
        (1 <? count_sig (loc_slice working start (start + window_days))
                threshold)).

(** ** Sample data *)

Definition Qz (z : Z) : Q := inject_Z z.

Definition day (d p c : Z) : row := mkRow d (Some (Qz p)) (Some (Qz c)).

(** Two rain days, the first with the discharge peak two days later. *)
Definition sample_df : list row :=
  [ day 1 0 10; day 2 5 10; day 3 0 12; day 4 0 30; day 5 0 30; day 6 0 11;
    mkRow 7 None (Some (Qz 9)); day 20 1 10; day 21 7 14; day 22 0 13 ].

(** Two rain days inside one window, then a third one weeks later. *)
Definition storm_df : list row :=
  [ day 1 5 10; day 2 0 25; day 3 5 20; day 4 0 25; day 30 7 5; day 31 0 8 ].

(** * Properties *)

(** ** Comparisons *)

Lemma Qlt_bool_iff (x y : Q) : Qlt_bool x y = true <-> (x < y)%Q.
Proof.
  unfold Qlt_bool. rewrite negb_true_iff. split; intro H.
  - apply Qnot_le_lt. intro Hle. apply Qle_bool_iff in Hle. congruence.
  - destruct (Qle_bool y x) eqn:E; [|reflexivity].
    apply Qle_bool_iff in E. exfalso. revert E. now apply Qlt_not_le.
Qed.

Lemma Qlt_bool_false (x y : Q) : Qlt_bool x y = false <-> (y <= x)%Q.
Proof.
  unfold Qlt_bool. rewrite negb_false_iff. apply Qle_bool_iff.
Qed.

Lemma Qle_bool_false (x y : Q) : Qle_bool x y = false -> (y < x)%Q.
Proof.
  intro H. apply Qnot_le_lt. intro Hle. apply Qle_bool_iff in Hle. congruence.
Qed.

(** ** Order statistics *)

Section Quantile.

Lemma insert_sorted_length (x : Q) (l : list Q) :
  length (insert_sorted x l) = S (length l).
Proof.
  induction l as [|y l IH]; simpl; [reflexivity|].
  destruct (Qle_bool x y); simpl; [reflexivity|now rewrite IH].
Qed.

Lemma sort_values_length (l : list Q) : length (sort_values l) = length l.
Proof.
  induction l as [|x l IH]; simpl; [reflexivity|].
  now rewrite insert_sorted_length, IH.
Qed.

Lemma insert_sorted_Forall (P : Q -> Prop) (x : Q) (l : list Q) :
  P x -> Forall P l -> Forall P (insert_sorted x l).
Proof.
  intros Hx Hl. induction Hl as [|y l Hy Hl IH]; simpl.
  - constructor; [assumption|constructor].
  - destruct (Qle_bool x y); repeat constructor; assumption.
Qed.

Lemma insert_sorted_sorted (x : Q) (l : list Q) :
  StronglySorted Qle l -> StronglySorted Qle (insert_sorted x l).
Proof.
  induction 1 as [|y l Hs IH Hy]; simpl.
  - repeat constructor.
  - destruct (Qle_bool x y) eqn:E.
    + apply Qle_bool_iff in E. constructor.
      * now constructor.
      * constructor; [assumption|].
        eapply Forall_impl; [|exact Hy].
        intros z Hz. now apply Qle_trans with y.
    + apply Qle_bool_false in E. constructor; [assumption|].
      apply insert_sorted_Forall; [now apply Qlt_le_weak|assumption].
Qed.

Lemma sort_values_sorted (l : list Q) : StronglySorted Qle (sort_values l).
Proof.
  induction l as [|x l IH]; simpl.
  - constructor.
  - now apply insert_sorted_sorted.
Qed.

Lemma sorted_nth_le (l : list Q) :
  StronglySorted Qle l ->
  forall i j : nat, (i <= j)%nat -> (j < length l)%nat ->
  (nth i l 0 <= nth j l 0)%Q.
Proof.
  induction 1 as [|x l Hs IH Hx]; intros i j Hij Hj; simpl in Hj; [lia|].
  destruct j as [|j].
  - assert (i = 0%nat) by lia. subst i. apply Qle_refl.
  - destruct i as [|i]; simpl.
    + rewrite Forall_forall in Hx. apply Hx, nth_In. lia.
    + apply IH; lia.
Qed.

(** The position of the interpolation and its fractional part. *)
Lemma virtual_index_bounds (n : Z) (q : Q) :
  1 <= n -> (0 <= q)%Q -> (q <= 1)%Q ->
  0 <= Qfloor (inject_Z (n - 1) * q) <= n - 1.
Proof.
  intros Hn Hq0 Hq1.
  assert (Hn0 : (0 <= inject_Z (n - 1))%Q).
  { change 0%Q with (inject_Z 0). rewrite <- Zle_Qle. lia. }
  split.
  - change 0 with (Qfloor (inject_Z 0)) at 1.
    apply Qfloor_resp_le. change (inject_Z 0) with 0%Q. nra.
  - rewrite <- (Qfloor_Z (n - 1)) at 2.
    apply Qfloor_resp_le. nra.
Qed.

Lemma fraction_bounds (h : Q) :
  (0 <= h - inject_Z (Qfloor h))%Q /\ (h - inject_Z (Qfloor h) < 1)%Q.
Proof.
  pose proof (Qfloor_le h) as H1.
  pose proof (Qlt_floor h) as H2.
  rewrite inject_Z_plus in H2. change (inject_Z 1) with 1%Q in H2.
  split; lra.
Qed.

Variable sorted : list Q.
Hypothesis sorted_ok : StronglySorted Qle sorted.
Hypothesis sorted_nonempty : (1 <= length sorted)%nat.

Lemma interpolate_between (q : Q) :
  (0 <= q)%Q -> (q <= 1)%Q ->
  let n := Z.of_nat (length sorted) in
  let lo := Qfloor (inject_Z (n - 1) * q) in
  let hi := Z.min (lo + 1) (n - 1) in
  (nth (Z.to_nat lo) sorted 0 <= interpolate sorted q)%Q /\
  (interpolate sorted q <= nth (Z.to_nat hi) sorted 0)%Q.
Proof.
  intros Hq0 Hq1 n lo hi.
  assert (Hn : 1 <= n) by (unfold n; lia).
  pose proof (virtual_index_bounds n q Hn Hq0 Hq1) as Hlo. fold lo in Hlo.
  pose proof (fraction_bounds (inject_Z (n - 1) * q)) as [Hg0 Hg1]. fold lo in Hg0, Hg1.
  assert (Hab : (nth (Z.to_nat lo) sorted 0 <= nth (Z.to_nat hi) sorted 0)%Q).
  { apply sorted_nth_le; [assumption| |]; unfold hi; lia. }
  unfold interpolate. fold n. fold lo. fold hi.
  set (a := nth (Z.to_nat lo) sorted 0%Q) in *.
  set (b := nth (Z.to_nat hi) sorted 0%Q) in *.
  set (g := (inject_Z (n - 1) * q - inject_Z lo)%Q) in *.
  split; nra.
Qed.

Lemma interpolate_monotone (q1 q2 : Q) :
  (0 <= q1)%Q -> (q1 <= q2)%Q -> (q2 <= 1)%Q ->
  (interpolate sorted q1 <= interpolate sorted q2)%Q.
Proof.
  intros H0 H12 H1.
  assert (Hq1 : (q1 <= 1)%Q) by lra.
  assert (Hq2 : (0 <= q2)%Q) by lra.
  pose proof (interpolate_between q1 H0 Hq1) as [_ Hup]. cbv zeta in Hup.
  pose proof (interpolate_between q2 Hq2 H1) as [Hdown _]. cbv zeta in Hdown.
  set (n := Z.of_nat (length sorted)) in *.
  assert (Hn : 1 <= n) by (unfold n; lia).
  assert (Hn0 : (0 <= inject_Z (n - 1))%Q).
  { change 0%Q with (inject_Z 0). rewrite <- Zle_Qle. lia. }
  pose proof (virtual_index_bounds n q1 Hn H0 Hq1) as Hb1.
  pose proof (virtual_index_bounds n q2 Hn Hq2 H1) as Hb2.
  assert (Hh : (inject_Z (n - 1) * q1 <= inject_Z (n - 1) * q2)%Q) by nra.
  pose proof (Qfloor_resp_le _ _ Hh) as Hlo.
  set (h1 := (inject_Z (n - 1) * q1)%Q) in *.
  set (h2 := (inject_Z (n - 1) * q2)%Q) in *.
  destruct (Z.eq_dec (Qfloor h1) (Qfloor h2)) as [Heq|Hne].
  - (* same pair of order statistics, larger fraction *)
    unfold interpolate. fold n. fold h1. fold h2. rewrite <- Heq.
    assert (Hab : (nth (Z.to_nat (Qfloor h1)) sorted 0 <=
                   nth (Z.to_nat (Z.min (Qfloor h1 + 1) (n - 1))) sorted 0)%Q).
    { apply sorted_nth_le; [assumption| |]; unfold n in *; lia. }
    set (a := nth (Z.to_nat (Qfloor h1)) sorted 0%Q) in *.
    set (b := nth (Z.to_nat (Z.min (Qfloor h1 + 1) (n - 1))) sorted 0%Q) in *.
    nra.
  - (* the upper neighbour of q1 is at or below the lower one of q2 *)
    apply Qle_trans with (nth (Z.to_nat (Z.min (Qfloor h1 + 1) (n - 1))) sorted 0%Q);
      [exact Hup|].
    apply Qle_trans with (nth (Z.to_nat (Qfloor h2)) sorted 0%Q); [|exact Hdown].
    apply sorted_nth_le; [assumption| |]; unfold n in *; lia.
Qed.

End Quantile.

(** ** The date index of [working] *)

Lemma increasing_sorted (l : list Z) :
  increasing l = true -> StronglySorted Z.lt l.
Proof.
  intro H. apply Sorted_StronglySorted; [exact Z.lt_trans|].
  induction l as [|x l IH]; [constructor|].
  destruct l as [|y l].
  - repeat constructor.
  - simpl in H. apply andb_true_iff in H as [Hxy Hl].
    constructor; [now apply IH|]. constructor. now apply Z.ltb_lt.
Qed.

Lemma dropna_dates (df : list row) (d : Z) :
  In d (map date (dropna df)) -> In d (map row_date df).
Proof.
  induction df as [|r df IH]; simpl; [tauto|].
  destruct (row_precip r), (row_discharge r); simpl; tauto.
Qed.

Lemma dropna_sorted (df : list row) :
  StronglySorted Z.lt (map row_date df) ->
  StronglySorted Z.lt (map date (dropna df)).
Proof.
  induction df as [|r df IH]; simpl; intro H; [constructor|].
  inversion H as [|? ? Hs Hall]; subst.
  destruct (row_precip r), (row_discharge r); simpl; auto.
  constructor; [auto|].
  rewrite Forall_forall in *. intros d Hd. now apply Hall, dropna_dates.
Qed.

Lemma valid_input_sorted (df : list row) (q : Q) (g w : Z) :
  valid_input df q g w -> StronglySorted Z.lt (map date (dropna df)).
Proof.
  intros [H _]. now apply dropna_sorted, increasing_sorted.
Qed.

Lemma filter_dates_sorted (f : rec -> bool) (l : list rec) :
  StronglySorted Z.lt (map date l) ->
  StronglySorted Z.lt (map date (filter f l)).
Proof.
  induction l as [|r l IH]; simpl; intro H; [constructor|].
  inversion H as [|? ? Hs Hall]; subst.
  destruct (f r); simpl; auto.
  constructor; [auto|].
  rewrite Forall_forall in *. intros d Hd. apply Hall.
  apply in_map_iff in Hd as (r' & <- & Hr'). apply filter_In in Hr' as [Hr' _].
  now apply in_map.
Qed.

(** One record per date. *)
Lemma sorted_dates_unique (l : list rec) :
  StronglySorted Z.lt (map date l) ->
  forall r r', In r l -> In r' l -> date r = date r' -> r = r'.
Proof.
  induction l as [|x l IH]; simpl; intros H r r' Hr Hr' E; [tauto|].
  inversion H as [|? ? Hs Hall]; subst. rewrite Forall_forall in Hall.
  destruct Hr as [<-|Hr], Hr' as [<-|Hr']; auto.
  - pose proof (Hall _ (in_map date _ _ Hr')). lia.
  - pose proof (Hall _ (in_map date _ _ Hr)). lia.
Qed.

Lemma loc_slice_In (working : list rec) (a b : Z) (r : rec) :
  In r (loc_slice working a b) <-> In r working /\ a <= date r <= b.
Proof.
  unfold loc_slice. rewrite filter_In, andb_true_iff, Z.leb_le, Z.leb_le. tauto.
Qed.

Lemma loc_row_Returned (l : list rec) (d : Z) (r : rec) :
  loc_row l d = Returned r -> In r l /\ date r = d.
Proof.
  induction l as [|x l IH]; simpl; [discriminate|].
  destruct (date x =? d) eqn:E.
  - intro H. injection H as <-. apply Z.eqb_eq in E. auto.
  - intro H. destruct (IH H). auto.
Qed.

Lemma loc_row_present (l : list rec) (r : rec) :
  In r l -> exists r', loc_row l (date r) = Returned r'.
Proof.
  induction l as [|x l IH]; simpl; [tauto|].
  intros [->|Hr].
  - rewrite Z.eqb_refl. eauto.
  - destruct (date x =? date r); eauto.
Qed.

(** ** The first maximum *)

Lemma idxmax_from_In (best : rec) (rest : list rec) :
  In (idxmax_from best rest) (best :: rest).
Proof.
  revert best. induction rest as [|r rest IH]; intro best; simpl; [auto|].
  destruct (Qlt_bool (discharge best) (discharge r)).
  - right. apply IH.
  - destruct (IH best) as [H|H]; simpl; auto.
Qed.

Lemma idxmax_from_first (rest : list rec) : forall best : rec,
  StronglySorted Z.lt (map date (best :: rest)) ->
  forall r, In r (best :: rest) ->
    (discharge r <= discharge (idxmax_from best rest))%Q /\
    ((discharge (idxmax_from best rest) <= discharge r)%Q ->
     date (idxmax_from best rest) <= date r).
Proof.
  induction rest as [|x rest IH]; intros best Hs r Hr.
  - destruct Hr as [<-|[]]. simpl. split; [apply Qle_refl|lia].
  - simpl map in Hs.
    inversion Hs as [|? ? Hs' Hall]; subst.
    inversion Hs' as [|? ? Hs'' Hall']; subst.
    inversion Hall as [|? ? Hbx Hall'']; subst.
    simpl idxmax_from.
    destruct (Qlt_bool (discharge best) (discharge x)) eqn:E.
    + apply Qlt_bool_iff in E.
      destruct Hr as [<-|Hr]; [|now apply IH].
      destruct (IH x Hs' x (or_introl eq_refl)) as [Hx _].
      split; [lra|]. intro Hge. exfalso. lra.
    + apply Qlt_bool_false in E.
      assert (Hs1 : StronglySorted Z.lt (map date (best :: rest))).
      { simpl. constructor; assumption. }
      destruct (IH best Hs1 best (or_introl eq_refl)) as [Hb Hbf].
      destruct Hr as [<-|[<-|Hr]].
      * now apply IH; [|left].
      * split; [lra|]. intro Hge.
        assert (date (idxmax_from best rest) <= date best) by (apply Hbf; lra).
        lia.
      * now apply IH; [|right].
Qed.

(** ** The scan for event starts *)

Section Scan.

Variable threshold : option Q.
Variable min_gap_days : Z.

Lemma separated_snoc (pre : list Z) (s d : Z) :
  separated min_gap_days (pre ++ [s]) -> min_gap_days < d - s ->
  separated min_gap_days ((pre ++ [s]) ++ [d]).
Proof.
  induction pre as [|x pre IH]; simpl; intros H Hd; [auto|].
  destruct pre as [|y pre]; simpl in *.
  - tauto.
  - destruct H as [Hxy H]. split; [assumption|]. now apply IH.
Qed.

Lemma separated_middle (pre post : list Z) (s s' : Z) :
  separated min_gap_days (pre ++ s :: s' :: post) -> min_gap_days < s' - s.
Proof.
  induction pre as [|x pre IH]; simpl.
  - tauto.
  - destruct (pre ++ s :: s' :: post) eqn:E; [now destruct pre|].
    intros [_ H]. now apply IH.
Qed.

Lemma separated_sorted (l : list Z) :
  0 <= min_gap_days -> separated min_gap_days l -> StronglySorted Z.lt l.
Proof.
  intros Hg H. apply Sorted_StronglySorted; [exact Z.lt_trans|].
  induction l as [|x l IH]; [constructor|].
  destruct l as [|y l].
  - repeat constructor.
  - destruct H as [Hxy H]. constructor; [now apply IH|]. constructor. lia.
Qed.

Lemma scan_starts_separated (rows : list rec) :
  forall event_starts skip_until,
  cursor_ok min_gap_days event_starts skip_until -> separated min_gap_days event_starts ->
  separated min_gap_days (scan_starts rows threshold min_gap_days event_starts skip_until).
Proof.
  induction rows as [|r rows IH]; intros es sk Hc Hsep; simpl; [assumption|].
  destruct sk as [u|]; simpl in Hc.
  - destruct (date r <=? u) eqn:Eu; [now apply IH|].
    apply Z.leb_gt in Eu.
    destruct (ge_threshold (precip r) threshold); [|now apply IH].
    destruct Hc as (pre & s & -> & ->).
    apply IH.
    + exists (pre ++ [s]), (date r). auto.
    + apply separated_snoc; [assumption|lia].
  - subst es. destruct (ge_threshold (precip r) threshold); [|now apply IH].
    apply IH; simpl; [|exact I]. exists [], (date r). auto.
Qed.

Lemma scan_starts_In (rows : list rec) :
  forall event_starts skip_until s,
  In s (scan_starts rows threshold min_gap_days event_starts skip_until) ->
  In s event_starts \/
  exists r, In r rows /\ date r = s /\ ge_threshold (precip r) threshold = true.
Proof.
  induction rows as [|r rows IH]; intros es sk s H; simpl in H; [auto|].
  assert (Hnext : forall es' sk',
    In s (scan_starts rows threshold min_gap_days es' sk') ->
    In s es' \/
    exists r0, In r0 (r :: rows) /\ date r0 = s /\
               ge_threshold (precip r0) threshold = true).
  { intros es' sk' H'. destruct (IH _ _ _ H') as [?|(r0 & ? & ? & ?)]; [auto|].
    right. exists r0. simpl. auto. }
  cbv zeta in H.
  destruct (match sk with Some u => date r <=? u | None => false end);
    [exact (Hnext _ _ H)|].
  destruct (ge_threshold (precip r) threshold) eqn:E; [|exact (Hnext _ _ H)].
  apply Hnext in H. destruct H as [H|H]; [|now right].
  apply in_app_or in H. destruct H as [H|[<-|[]]]; [auto|].
  right. exists r. simpl. auto.
Qed.

End Scan.

(** ** The loop over the event starts *)

Section Events.

Variable working : list rec.
Variable threshold : option Q.
Variable window_days : Z.

Lemma count_sig_pos (window : list rec) (r : rec) :
  In r window -> ge_threshold (precip r) threshold = true ->
  1 <= count_sig window threshold.
Proof.
  intros Hr Hge. unfold count_sig.
  assert (H : In r (filter (fun r => ge_threshold (precip r) threshold) window))
    by (apply filter_In; auto).
  destruct (filter _ window); [destruct H|]. simpl length. lia.
Qed.

(** What an appended event is made of. *)
Lemma event_of_Some (require_single_day : bool) (start : Z) (ev : event) :
  event_of working threshold window_days require_single_day start
    = Returned (Some ev) ->
  let window := loc_slice working start (start + window_days) in
  exists pk peak_row start_row,
    (require_single_day = true -> count_sig window threshold <= 1) /\
    idxmax window = Returned pk /\
    loc_row window pk = Returned peak_row /\
    loc_row working start = Returned start_row /\
    ev = mkEvent start pk (pk - start) (discharge peak_row) (precip start_row)
           (count_sig window threshold).
Proof.
  intros H window. unfold event_of in H. fold window in H.
  destruct window as [|r0 rest] eqn:Ew; [discriminate|]. rewrite <- Ew in *.
  destruct (require_single_day && (1 <? count_sig window threshold)) eqn:Eg;
    [discriminate|].
  destruct (idxmax window) as [pk|] eqn:Ei; [|discriminate]. simpl in H.
  destruct (loc_row window pk) as [peak_row|] eqn:Ep; [|discriminate]. simpl in H.
  destruct (loc_row working start) as [start_row|] eqn:Es; [|discriminate].
  simpl in H. injection H as <-.
  exists pk, peak_row, start_row. repeat split; auto.
  intros ->. simpl in Eg. apply Z.ltb_ge in Eg. exact Eg.
Qed.

Lemma idxmax_present (window : list rec) :
  window <> [] ->
  exists m, In m window /\ idxmax window = Returned (date m).
Proof.
  destruct window as [|r rest]; [congruence|]. intros _.
  exists (idxmax_from r rest). split; [apply idxmax_from_In|reflexivity].
Qed.

(** The body of the loop raises nothing at a date of the index. *)
Lemma event_of_returns (require_single_day : bool) (start : Z) :
  present working start ->
  exists o, event_of working threshold window_days require_single_day start
            = Returned o.
Proof.
  intros (r & Hr & Hd). unfold event_of.
  set (window := loc_slice working start (start + window_days)).
  destruct window as [|r0 rest] eqn:Ew; [eauto|]. rewrite <- Ew.
  destruct (require_single_day && (1 <? count_sig window threshold)); [eauto|].
  destruct (idxmax_present window) as (m & Hm & ->); [congruence|]. simpl.
  destruct (loc_row_present _ _ Hm) as (peak_row & ->). simpl.
  destruct (loc_row_present _ _ Hr) as (start_row & Hs). rewrite Hd in Hs.
  rewrite Hs. simpl. eauto.
Qed.

(** With a non-negative window the start is in its own window, and without
    the single-day rule its event is appended. *)
Lemma own_window (start : Z) :
  0 <= window_days -> present working start ->
  exists r, In r (loc_slice working start (start + window_days)) /\ date r = start.
Proof.
  intros Hw (r & Hr & Hd). exists r. split; [|assumption].
  apply loc_slice_In. split; [assumption|lia].
Qed.

Lemma event_of_every_day (start : Z) :
  0 <= window_days -> present working start ->
  exists ev, event_of working threshold window_days false start
             = Returned (Some ev).
Proof.
  intros Hw Hp. destruct (own_window start Hw Hp) as (r & Hr & _).
  destruct Hp as (r1 & Hr1 & Hd). unfold event_of.
  set (window := loc_slice working start (start + window_days)) in *.
  destruct window as [|r0 rest] eqn:Ew; [destruct Hr|]. rewrite <- Ew.
  simpl andb. cbv iota.
  destruct (idxmax_present window) as (m & Hm & ->); [congruence|]. simpl.
  destruct (loc_row_present _ _ Hm) as (peak_row & ->). simpl.
  destruct (loc_row_present _ _ Hr1) as (start_row & Hs). rewrite Hd in Hs.
  rewrite Hs. simpl. eauto.
Qed.

Lemma build_events_In (require_single_day : bool) (starts : list Z) :
  forall events result,
  build_events working threshold window_days require_single_day starts events
    = Returned result ->
  forall ev, In ev result ->
  In ev events \/
  exists s, In s starts /\
    event_of working threshold window_days require_single_day s
      = Returned (Some ev).
Proof.
  induction starts as [|s starts IH]; intros events result H ev Hev; simpl in H.
  - injection H as <-. auto.
  - destruct (event_of working threshold window_days require_single_day s)
      as [[e|]|] eqn:E; simpl in H; [| |discriminate].
    + destruct (IH _ _ H ev Hev) as [Hin|(s' & Hs' & He)].
      * apply in_app_or in Hin. destruct Hin as [Hin|[<-|[]]]; [auto|].
        right. exists s. simpl. auto.
      * right. exists s'. simpl. auto.
    + destruct (IH _ _ H ev Hev) as [Hin|(s' & Hs' & He)]; [auto|].
      right. exists s'. simpl. auto.
Qed.

Lemma build_events_returns (require_single_day : bool) (starts : list Z) :
  Forall (present working) starts ->
  forall events, exists result,
  build_events working threshold window_days require_single_day starts events
    = Returned result.
Proof.
  induction 1 as [|s starts Hs Hall IH]; intro events; simpl; [eauto|].
  destruct (event_of_returns require_single_day s Hs) as ([ev|] & ->); simpl;
    apply IH.
Qed.

Lemma build_events_every_day (starts : list Z) :
  0 <= window_days -> Forall (present working) starts ->
  forall events, exists result,
  build_events working threshold window_days false starts events
    = Returned result /\
  length result = (length events + length starts)%nat.
Proof.
  intro Hw. induction 1 as [|s starts Hs Hall IH]; intro events; simpl.
  - exists events. split; [reflexivity|lia].
  - destruct (event_of_every_day s Hw Hs) as (ev & ->). simpl.
    destruct (IH (events ++ [ev])) as (result & -> & Hlen).
    exists result. split; [reflexivity|].
    rewrite Hlen, length_app. simpl. lia.
Qed.

End Events.

(** ** The whole function *)

Lemma scan_starts_nan (min_gap_days : Z) (rows : list rec) :
  forall event_starts skip_until,
  scan_starts rows None min_gap_days event_starts skip_until = event_starts.
Proof.
  induction rows as [|r rows IH]; intros es sk; simpl; [reflexivity|].
  destruct (match sk with Some u => date r <=? u | None => false end); apply IH.
Qed.

Lemma event_starts_present (working : list rec) (threshold : option Q)
    (min_gap_days : Z) :
  Forall (fun s => exists r, In r working /\ date r = s /\
                   ge_threshold (precip r) threshold = true)
         (event_starts_of working threshold min_gap_days).
Proof.
  apply Forall_forall. intros s Hs.
  apply scan_starts_In in Hs. destruct Hs as [[]|H]. exact H.
Qed.

Lemma quantile_in_range (values : list Q) (q : Q) :
  (0 <= q)%Q -> (q <= 1)%Q ->
  quantile values q =
    Returned (match values with
              | [] => None
              | _ :: _ => Some (interpolate (sort_values values) q)
              end).
Proof.
  intros H0 H1. unfold quantile.
  apply Qle_bool_iff in H0. apply Qle_bool_iff in H1. rewrite H0, H1. simpl.
  now destruct values.
Qed.

Lemma quantile_out_of_range (values : list Q) (q : Q) :
  (q < 0)%Q \/ (1 < q)%Q -> quantile values q = Raised ValueError.
Proof.
  intro H. unfold quantile.
  destruct (Qle_bool 0 q) eqn:E0; [|reflexivity].
  destruct (Qle_bool q 1) eqn:E1; [|reflexivity].
  apply Qle_bool_iff in E0. apply Qle_bool_iff in E1. exfalso.
  destruct H as [H|H]; lra.
Qed.

(** The function returns whenever the quantile is defined. *)
Lemma find_events_and_lags_returns (df : list row) (q : Q)
    (min_gap_days window_days : Z) (require_single_day : bool) :
  (0 <= q)%Q -> (q <= 1)%Q ->
  exists events threshold,
    quantile (positive_precip (dropna df)) q = Returned threshold /\
    find_events_and_lags df q min_gap_days window_days require_single_day
      = Returned (events, threshold).
Proof.
  intros H0 H1. unfold find_events_and_lags.
  rewrite (quantile_in_range _ q H0 H1).
  set (threshold := match positive_precip (dropna df) with
                    | [] => None | _ :: _ => _ end).
  simpl bind.
  destruct (build_events_returns (dropna df) threshold window_days
              require_single_day
              (event_starts_of (dropna df) threshold min_gap_days))
    with (events := @nil event) as (events & Hb).
  - eapply Forall_impl; [|apply event_starts_present].
    intros s (r & Hr & Hd & _). exists r. auto.
  - exists events, threshold. rewrite Hb. simpl. auto.
Qed.

(** Every row of the event table comes from an event start of the scan. *)
Lemma emitted_event (df : list row) (q : Q) (min_gap_days window_days : Z)
    (require_single_day : bool) (events : list event) (threshold : option Q)
    (ev : event) :
  find_events_and_lags df q min_gap_days window_days require_single_day
    = Returned (events, threshold) ->
  In ev events ->
  quantile (positive_precip (dropna df)) q = Returned threshold /\
  In (event_date ev) (event_starts_of (dropna df) threshold min_gap_days) /\
  event_of (dropna df) threshold window_days require_single_day (event_date ev)
    = Returned (Some ev).
Proof.
  unfold find_events_and_lags. intros H Hev.
  destruct (quantile (positive_precip (dropna df)) q) as [t|] eqn:Eq;
    [|discriminate]. simpl in H.
  destruct (build_events (dropna df) t window_days require_single_day
              (event_starts_of (dropna df) t min_gap_days) [])
    as [evs|] eqn:Eb; [|discriminate]. simpl in H.
  injection H as <- <-.
  destruct (build_events_In _ _ _ _ _ _ _ Eb ev Hev) as [[]|(s & Hs & He)].
  assert (event_date ev = s) as ->.
  { destruct (event_of_Some _ _ _ _ _ _ He) as (? & ? & ? & _ & _ & _ & _ & ->).
    reflexivity. }
  auto.
Qed.

Lemma idxmax_In (window : list rec) (pk : Z) :
  idxmax window = Returned pk -> exists m, In m window /\ date m = pk.
Proof.
  destruct window as [|r rest]; simpl; [discriminate|].
  intro H. injection H as <-.
  exists (idxmax_from r rest). split; [apply idxmax_from_In|reflexivity].
Qed.

Lemma idxmax_first (window : list rec) (pk : Z) :
  StronglySorted Z.lt (map date window) ->
  idxmax window = Returned pk ->
  exists m, In m window /\ date m = pk /\
    forall r, In r window ->
      (discharge r <= discharge m)%Q /\
      ((discharge m <= discharge r)%Q -> pk <= date r).
Proof.
  destruct window as [|r0 rest]; simpl idxmax; [discriminate|].
  intros Hs H. injection H as <-.
  exists (idxmax_from r0 rest).
  split; [apply idxmax_from_In|]. split; [reflexivity|].
  intros r Hr. now apply idxmax_from_first.
Qed.

(** Inside the range, every date the two loops add a day count to, and
    every sum they form, is a timestamp. *)
Lemma additions_in_range (df : list row) (threshold : option Q)
    (min_gap_days window_days : Z) :
  in_timestamp_range df min_gap_days window_days = true ->
  Forall (fun s => representable s = true /\
                   representable (s + min_gap_days) = true /\
                   representable (s + window_days) = true)
         (event_starts_of (dropna df) threshold min_gap_days).
Proof.
  unfold in_timestamp_range. intro H.
  apply andb_true_iff in H as [_ H]. rewrite forallb_forall in H.
  eapply Forall_impl; [|apply event_starts_present].
  intros s (r & Hr & Hd & _).
  assert (Hin : In s (map row_date df)).
  { apply dropna_dates. rewrite <- Hd. now apply in_map. }
  apply in_map_iff in Hin as (x & <- & Hx).
  specialize (H x Hx). apply andb_true_iff in H as [H H3].
  apply andb_true_iff in H as [H1 H2]. auto.
Qed.

Lemma filter_filter {A : Type} (f g : A -> bool) (l : list A) :
  filter f (filter g l) = filter (fun x => g x && f x) l.
Proof.
  induction l as [|x l IH]; simpl; [reflexivity|].
  destruct (g x); simpl; [|exact IH].
  destruct (f x); now rewrite IH.
Qed.

(** A filter that keeps at most one element keeps one value only. *)
Lemma filter_at_most_one {A : Type} (f : A -> bool) (l : list A) (a b : A) :
  (length (filter f l) <= 1)%nat ->
  In a l -> f a = true -> In b l -> f b = true -> a = b.
Proof.
  induction l as [|x l IH]; simpl; intros Hlen Ha Hfa Hb Hfb; [tauto|].
  assert (Hkept : forall y, In y l -> f y = true ->
                  (1 <= length (filter f l))%nat).
  { intros y Hy Hfy.
    assert (Hin : In y (filter f l)) by (apply filter_In; auto).
    destruct (filter f l); [destruct Hin|simpl; lia]. }
  destruct Ha as [->|Ha], Hb as [->|Hb]; auto.
  - rewrite Hfa in Hlen. simpl in Hlen. pose proof (Hkept b Hb Hfb). lia.
  - rewrite Hfb in Hlen. simpl in Hlen. pose proof (Hkept a Ha Hfa). lia.
  - destruct (f x); simpl in Hlen; apply IH; auto; lia.
Qed.

Ltac valid_by_computation :=
  repeat split; try reflexivity; try (intro; discriminate).

(** * The claims *)

(** ** Error conditions *)

(** C1, as the code has it: there is no [EmptyInputError].  When no record
    is left after dropping those with a missing precipitation or discharge,
    [find_events_and_lags] raises nothing for a percentile in [0, 1]: it
    returns an empty event table and a NaN threshold. *)
Theorem empty_input_returns (df : list row) (q : Q)
    (min_gap_days window_days : Z) (require_single_day : bool) :
  dropna df = [] -> (0 <= q)%Q -> (q <= 1)%Q ->
  find_events_and_lags df q min_gap_days window_days require_single_day
    = Returned ([], None).
Proof.
  intros He H0 H1. unfold find_events_and_lags. rewrite He.
  change (positive_precip []) with (@nil Q).
  now rewrite (quantile_in_range [] q H0 H1).
Qed.

Lemma empty_input_returns_witness :
  find_events_and_lags [mkRow 1 None (Some (Qz 3)); mkRow 2 (Some (Qz 4)) None]
    (9 # 10) 10 10 true = Returned ([], None).
Proof.
  apply empty_input_returns; [reflexivity| |]; intro; discriminate.
Defined.

(** C1, as stated, fails: every record of this frame misses a value, so zero
    records remain, and the call returns instead of raising. *)
Lemma empty_input_is_not_an_error :
  let df := [mkRow 1 None (Some (Qz 3)); mkRow 2 (Some (Qz 4)) None] in
  dropna df = [] /\
  raises (find_events_and_lags df (9 # 10) 10 10 true) = false /\
  find_events_and_lags df (9 # 10) 10 10 true = Returned ([], None).
Proof.
  repeat split.
Qed.

(** C2, as the code has it: the only parameter check is the one of
    [Series.quantile].  A percentile outside the closed interval [0, 1]
    raises [ValueError], whatever the records are (the quantile is computed
    before the scan).  On a frame in date order, with dates and day counts
    in the range of a timestamp, every percentile in [0, 1], 0 and 1
    included, and every [min_gap_days] and [window_days], negative ones
    included, raise nothing. *)
Theorem parameter_errors (df : list row) (q : Q)
    (min_gap_days window_days : Z) (require_single_day : bool) :
  ((q < 0)%Q \/ (1 < q)%Q ->
   find_events_and_lags df q min_gap_days window_days require_single_day
     = Raised ValueError) /\
  (increasing (map row_date df) = true ->
   in_timestamp_range df min_gap_days window_days = true ->
   (0 <= q)%Q /\ (q <= 1)%Q ->
   raises (find_events_and_lags df q min_gap_days window_days
             require_single_day) = false).
Proof.
  split.
  - intro H. unfold find_events_and_lags.
    now rewrite (quantile_out_of_range _ q H).
  - intros _ _ [H0 H1].
    destruct (find_events_and_lags_returns df q min_gap_days window_days
                require_single_day H0 H1) as (events & threshold & _ & ->).
    reflexivity.
Qed.

Lemma parameter_errors_witness :
  find_events_and_lags sample_df (3 # 2) 10 10 true = Raised ValueError /\
  raises (find_events_and_lags sample_df (1 # 2) (-3) (-1) true) = false.
Proof.
  split.
  - apply (parameter_errors sample_df (3 # 2) 10 10 true). right. reflexivity.
  - apply (parameter_errors sample_df (1 # 2) (-3) (-1) true).
    + reflexivity.
    + reflexivity.
    + split; intro; discriminate.
Defined.

(** C2, as stated, fails: a negative [min_gap_days], a negative
    [window_days] and the percentiles 0 and 1, which are outside the open
    interval, all give a result. *)
Lemma invalid_parameters_return :
  raises (find_events_and_lags sample_df (1 # 2) (-1) 10 true) = false /\
  raises (find_events_and_lags sample_df (1 # 2) 10 (-1) true) = false /\
  raises (find_events_and_lags sample_df 0 10 10 true) = false /\
  raises (find_events_and_lags sample_df 1 10 10 true) = false.
Proof.
  repeat split.
Qed.

(** ** Event starts *)

(** C4: on every valid input the threshold is computed and the event starts
    that the scan selects are in strictly increasing date order, any two
    consecutive ones more than [min_gap_days] days apart. *)
Theorem event_starts_separated (df : list row) (q : Q)
    (min_gap_days window_days : Z) :
  valid_input df q min_gap_days window_days ->
  exists threshold,
    quantile (positive_precip (dropna df)) q = Returned threshold /\
    let starts := event_starts_of (dropna df) threshold min_gap_days in
    StronglySorted Z.lt starts /\
    forall pre s s' post,
      starts = pre ++ s :: s' :: post ->
      min_gap_days < s' - s /\ s < s'.
Proof.
  intros (_ & H0 & H1 & Hg & _).
  eexists. split.
  - apply quantile_in_range; now apply Qlt_le_weak.
  - set (threshold := match positive_precip (dropna df) with
                      | [] => None | _ :: _ => _ end).
    assert (Hsep : separated min_gap_days
                     (event_starts_of (dropna df) threshold min_gap_days)).
    { apply scan_starts_separated; simpl; auto. }
    cbv zeta. split.
    + now apply separated_sorted with min_gap_days.
    + intros pre s s' post E. rewrite E in Hsep.
      apply separated_middle in Hsep. lia.
Qed.

Lemma event_starts_separated_witness :
  exists threshold,
    quantile (positive_precip (dropna sample_df)) (1 # 2) = Returned threshold /\
    let starts := event_starts_of (dropna sample_df) threshold 10 in
    StronglySorted Z.lt starts /\
    forall pre s s' post,
      starts = pre ++ s :: s' :: post -> 10 < s' - s /\ s < s'.
Proof.
  apply (event_starts_separated sample_df (1 # 2) 10 10).
  valid_by_computation.
Defined.

(** ** Windows *)

(** A frame with a gap of 98 days after the rain day: the window of the
    start still holds the start itself. *)
Example long_gap :
  find_events_and_lags [day 1 5 10; day 100 0 10] (1 # 2) 10 10 true
  = Returned ([mkEvent 1 1 0 (Qz 10) (Qz 5) 1], Some (10 # 2)).
Proof. reflexivity. Qed.

(** C3, as the code has it: on every valid input, with dates and day counts
    in the range of a timestamp, the window of every event start holds the
    record of the start itself, so it is never empty and no start is
    discarded by the [window.empty] test; without the single-day rule the
    event table has one row per event start. *)
Theorem window_never_empty (df : list row) (q : Q)
    (min_gap_days window_days : Z) :
  valid_input df q min_gap_days window_days ->
  in_timestamp_range df min_gap_days window_days = true ->
  exists threshold,
    quantile (positive_precip (dropna df)) q = Returned threshold /\
    let starts := event_starts_of (dropna df) threshold min_gap_days in
    (forall s, In s starts ->
       exists r, In r (loc_slice (dropna df) s (s + window_days)) /\
                 date r = s) /\
    exists events,
      find_events_and_lags df q min_gap_days window_days false
        = Returned (events, threshold) /\
      length events = length starts.
Proof.
  intros (_ & H0 & H1 & _ & Hw) _.
  apply Qlt_le_weak in H0. apply Qlt_le_weak in H1.
  pose proof (quantile_in_range (positive_precip (dropna df)) q H0 H1) as Hq.
  eexists. split; [exact Hq|].
  set (threshold := match positive_precip (dropna df) with
                    | [] => None | _ :: _ => _ end) in *.
  cbv zeta.
  assert (Hp : Forall (present (dropna df))
                 (event_starts_of (dropna df) threshold min_gap_days)).
  { eapply Forall_impl; [|apply event_starts_present].
    intros s (r & Hr & Hd & _). exists r. auto. }
  split.
  - intros s Hs. rewrite Forall_forall in Hp. now apply own_window; [|apply Hp].
  - destruct (build_events_every_day (dropna df) threshold window_days _ Hw Hp [])
      as (events & Hb & Hlen).
    exists events. split; [|exact Hlen].
    unfold find_events_and_lags. rewrite Hq. simpl bind. now rewrite Hb.
Qed.

Lemma window_never_empty_witness :
  exists threshold,
    quantile (positive_precip (dropna sample_df)) (1 # 2) = Returned threshold /\
    let starts := event_starts_of (dropna sample_df) threshold 10 in
    (forall s, In s starts ->
       exists r, In r (loc_slice (dropna sample_df) s (s + 10)) /\ date r = s) /\
    exists events,
      find_events_and_lags sample_df (1 # 2) 10 10 false
        = Returned (events, threshold) /\
      length events = length starts.
Proof.
  apply (window_never_empty sample_df (1 # 2) 10 10).
  - valid_by_computation.
  - reflexivity.
Defined.

(** C3, as stated, fails: no valid input has an event start whose window
    holds no record. *)
Lemma no_start_with_empty_window :
  ~ exists df q min_gap_days window_days threshold s,
      valid_input df q min_gap_days window_days /\
      dropna df <> [] /\
      quantile (positive_precip (dropna df)) q = Returned threshold /\
      In s (event_starts_of (dropna df) threshold min_gap_days) /\
      loc_slice (dropna df) s (s + window_days) = [].
Proof.
  intros (df & q & g & w & threshold & s & Hv & _ & _ & Hs & He).
  destruct Hv as (_ & _ & _ & _ & Hw).
  pose proof (event_starts_present (dropna df) threshold g) as Hp.
  rewrite Forall_forall in Hp. destruct (Hp s Hs) as (r & Hr & Hd & _).
  destruct (own_window (dropna df) w s Hw) as (r' & Hr' & _).
  - exists r. auto.
  - rewrite He in Hr'. destruct Hr'.
Qed.

(** C5: with [require_single_day] set, every event of the table has
    [n_sig_days_in_window] equal to 1.  This field is the number of records
    dated from [event_date] to [event_date + window_days] whose precipitation
    is at least the threshold, and the record of the event date is the only
    such record. *)
Theorem single_day_events (df : list row) (q : Q)
    (min_gap_days window_days : Z) (events : list event)
    (threshold : option Q) (ev : event) :
  valid_input df q min_gap_days window_days ->
  find_events_and_lags df q min_gap_days window_days true
    = Returned (events, threshold) ->
  In ev events ->
  n_sig_days_in_window ev = 1 /\
  exists t r,
    threshold = Some t /\
    n_sig_days_in_window ev
      = Z.of_nat (length (filter
          (fun r' => (event_date ev <=? date r') &&
                     (date r' <=? event_date ev + window_days) &&
                     Qle_bool t (precip r'))
          (dropna df))) /\
    In r (dropna df) /\ date r = event_date ev /\ (t <= precip r)%Q /\
    forall r', In r' (dropna df) ->
      event_date ev <= date r' <= event_date ev + window_days ->
      (t <= precip r')%Q -> r' = r.
Proof.
  intros (_ & _ & _ & _ & Hw) H Hev.
  destruct (emitted_event _ _ _ _ _ _ _ _ H Hev) as (_ & Hs & He).
  destruct (event_of_Some _ _ _ _ _ _ He)
    as (pk & peak_row & start_row & Hle & _ & _ & _ & E).
  pose proof (event_starts_present (dropna df) threshold min_gap_days) as Hp.
  rewrite Forall_forall in Hp. destruct (Hp _ Hs) as (r & Hr & Hd & Hge).
  destruct threshold as [t|]; [|discriminate].
  simpl in Hge.
  set (keep := fun r' : rec =>
         (event_date ev <=? date r') &&
         (date r' <=? event_date ev + window_days) &&
         Qle_bool t (precip r')).
  assert (Hcount : count_sig (loc_slice (dropna df) (event_date ev)
                                (event_date ev + window_days)) (Some t)
                   = Z.of_nat (length (filter keep (dropna df)))).
  { unfold count_sig, loc_slice. now rewrite filter_filter. }
  assert (Hn : n_sig_days_in_window ev
               = Z.of_nat (length (filter keep (dropna df)))).
  { rewrite <- Hcount. rewrite E at 1. reflexivity. }
  assert (Hkeep : forall x, keep x = true <->
            event_date ev <= date x <= event_date ev + window_days /\
            (t <= precip x)%Q).
  { intro x. unfold keep.
    rewrite !andb_true_iff, !Z.leb_le, Qle_bool_iff. tauto. }
  assert (Hkr : keep r = true).
  { apply Hkeep. apply Qle_bool_iff in Hge. split; [lia|assumption]. }
  assert (Hone : n_sig_days_in_window ev = 1).
  { specialize (Hle eq_refl). rewrite Hcount in Hle.
    assert (Hrin : In r (filter keep (dropna df))) by (apply filter_In; auto).
    rewrite Hn. destruct (filter keep (dropna df)); [destruct Hrin|].
    simpl length in *. lia. }
  split; [exact Hone|].
  exists t, r. split; [reflexivity|]. split; [exact Hn|].
  split; [exact Hr|]. split; [exact Hd|].
  split; [now apply Qle_bool_iff|].
  intros r' Hr' Hwin Ht.
  apply (filter_at_most_one keep (dropna df)); auto.
  - rewrite Hn in Hone. lia.
  - apply Hkeep. auto.
Qed.

Lemma single_day_events_witness :
  let ev := mkEvent 2 4 2 (Qz 30) (Qz 5) 1 in
  n_sig_days_in_window ev = 1 /\
  exists t r,
    Some (10 # 2) = Some t /\
    n_sig_days_in_window ev
      = Z.of_nat (length (filter
          (fun r' => (event_date ev <=? date r') &&
                     (date r' <=? event_date ev + 10) &&
                     Qle_bool t (precip r'))
          (dropna sample_df))) /\
    In r (dropna sample_df) /\ date r = event_date ev /\ (t <= precip r)%Q /\
    forall r', In r' (dropna sample_df) ->
      event_date ev <= date r' <= event_date ev + 10 ->
      (t <= precip r')%Q -> r' = r.
Proof.
  apply (single_day_events sample_df (1 # 2) 10 10
           [mkEvent 2 4 2 (Qz 30) (Qz 5) 1; mkEvent 21 21 0 (Qz 14) (Qz 7) 1]
           (Some (10 # 2)) (mkEvent 2 4 2 (Qz 30) (Qz 5) 1)).
  - valid_by_computation.
  - reflexivity.
  - left. reflexivity.
Defined.

(** ** The discharge peak *)

(** C6: for every event of the table, [lag_days] is not negative and
    [peak_date] lies in the window: [event_date <= peak_date <= event_date +
    window_days]. *)
Theorem peak_in_window (df : list row) (q : Q)
    (min_gap_days window_days : Z) (require_single_day : bool)
    (events : list event) (threshold : option Q) (ev : event) :
  valid_input df q min_gap_days window_days ->
  find_events_and_lags df q min_gap_days window_days require_single_day
    = Returned (events, threshold) ->
  In ev events ->
  0 <= lag_days ev /\
  event_date ev <= peak_date ev <= event_date ev + window_days.
Proof.
  intros _ H Hev.
  destruct (emitted_event _ _ _ _ _ _ _ _ H Hev) as (_ & _ & He).
  destruct (event_of_Some _ _ _ _ _ _ He)
    as (pk & peak_row & start_row & _ & Hi & _ & _ & E).
  destruct (idxmax_In _ _ Hi) as (m & Hm & Hd).
  apply loc_slice_In in Hm. destruct Hm as [_ Hm]. rewrite Hd in Hm.
  rewrite E. simpl. rewrite E in Hm. simpl in Hm. lia.
Qed.

Lemma peak_in_window_witness :
  0 <= lag_days (mkEvent 2 4 2 (Qz 30) (Qz 5) 1) /\
  event_date (mkEvent 2 4 2 (Qz 30) (Qz 5) 1)
    <= peak_date (mkEvent 2 4 2 (Qz 30) (Qz 5) 1)
    <= event_date (mkEvent 2 4 2 (Qz 30) (Qz 5) 1) + 10.
Proof.
  apply (peak_in_window sample_df (1 # 2) 10 10 true
           [mkEvent 2 4 2 (Qz 30) (Qz 5) 1; mkEvent 21 21 0 (Qz 14) (Qz 7) 1]
           (Some (10 # 2)) (mkEvent 2 4 2 (Qz 30) (Qz 5) 1)).
  - valid_by_computation.
  - reflexivity.
  - left. reflexivity.
Defined.



(** ** Rain on the event date *)

(** C8: for every event of the table, the one record dated [event_date] has
    a precipitation of at least the threshold, and [rain_amount] is that
    precipitation. *)
Theorem event_date_is_significant (df : list row) (q : Q)
    (min_gap_days window_days : Z) (require_single_day : bool)
    (events : list event) (threshold : option Q) (ev : event) :
  valid_input df q min_gap_days window_days ->
  find_events_and_lags df q min_gap_days window_days require_single_day
    = Returned (events, threshold) ->
  In ev events ->
  exists r t,
    In r (dropna df) /\ date r = event_date ev /\
    (forall r', In r' (dropna df) -> date r' = event_date ev -> r' = r) /\
    threshold = Some t /\ (t <= precip r)%Q /\
    rain_amount ev = precip r.
Proof.
  intros Hv H Hev.
  destruct (emitted_event _ _ _ _ _ _ _ _ H Hev) as (_ & Hs & He).
  destruct (event_of_Some _ _ _ _ _ _ He)
    as (pk & peak_row & start_row & _ & _ & _ & Hl & E).
  pose proof (event_starts_present (dropna df) threshold min_gap_days) as Hp.
  rewrite Forall_forall in Hp. destruct (Hp _ Hs) as (r & Hr & Hd & Hge).
  pose proof (valid_input_sorted _ _ _ _ Hv) as Hsorted.
  apply loc_row_Returned in Hl. destruct Hl as [Hin Hdate].
  assert (start_row = r) as ->.
  { apply (sorted_dates_unique _ Hsorted); [assumption|assumption|congruence]. }
  destruct threshold as [t|]; [|discriminate].
  exists r, t. repeat split; auto.
  - intros r' Hr' Hd'.
    apply (sorted_dates_unique _ Hsorted); [assumption|assumption|congruence].
  - now apply Qle_bool_iff.
  - rewrite E. reflexivity.
Qed.

Lemma event_date_is_significant_witness :
  let ev := mkEvent 21 21 0 (Qz 14) (Qz 7) 1 in
  exists r t,
    In r (dropna sample_df) /\ date r = event_date ev /\
    (forall r', In r' (dropna sample_df) -> date r' = event_date ev -> r' = r) /\
    Some (10 # 2) = Some t /\ (t <= precip r)%Q /\
    rain_amount ev = precip r.
Proof.
  apply (event_date_is_significant sample_df (1 # 2) 10 10 true
           [mkEvent 2 4 2 (Qz 30) (Qz 5) 1; mkEvent 21 21 0 (Qz 14) (Qz 7) 1]
           (Some (10 # 2)) (mkEvent 21 21 0 (Qz 14) (Qz 7) 1)).
  - valid_by_computation.
  - reflexivity.
  - right. left. reflexivity.
Defined.

(** ** The threshold *)

Lemma positive_precip_nonempty (working : list rec) (r : rec) :
  In r working -> (0 < precip r)%Q -> positive_precip working <> [].
Proof.
  intros Hr Hp E.
  assert (H : In (precip r) (positive_precip working)).
  { unfold positive_precip. apply in_map, filter_In. split; [assumption|].
    now apply Qlt_bool_iff. }
  rewrite E in H. destruct H.
Qed.

Lemma positive_precip_empty (working : list rec) :
  (forall r, In r working -> (precip r <= 0)%Q) -> positive_precip working = [].
Proof.
  intro H. unfold positive_precip.
  induction working as [|r working IH]; [reflexivity|]. simpl.
  assert (E : Qlt_bool 0 (precip r) = false).
  { apply Qlt_bool_false, H. now left. }
  rewrite E. apply IH. intros r' Hr'. apply H. now right.
Qed.

(** C9, as the code has it: on a valid input with at least one strictly
    positive precipitation, and with dates and day counts in the range of a
    timestamp, the threshold returned is a number for every percentile of
    the open unit interval, and it does not decrease when the percentile
    grows (the quantile being the exact linear interpolation between order
    statistics). *)
Theorem threshold_monotone (df : list row) (q1 q2 : Q)
    (min_gap_days window_days : Z) (require_single_day : bool) (r : rec) :
  valid_input df q1 min_gap_days window_days ->
  valid_input df q2 min_gap_days window_days ->
  in_timestamp_range df min_gap_days window_days = true ->
  In r (dropna df) -> (0 < precip r)%Q ->
  (q1 <= q2)%Q ->
  exists events1 t1 events2 t2,
    find_events_and_lags df q1 min_gap_days window_days require_single_day
      = Returned (events1, Some t1) /\
    find_events_and_lags df q2 min_gap_days window_days require_single_day
      = Returned (events2, Some t2) /\
    (t1 <= t2)%Q /\
    threshold_le (Some t1) (Some t2) = true.
Proof.
  intros (_ & H1a & H1b & _) (_ & H2a & H2b & _) _ Hr Hp H12.
  apply Qlt_le_weak in H1a, H1b, H2a, H2b.
  destruct (find_events_and_lags_returns df q1 min_gap_days window_days
              require_single_day H1a H1b) as (events1 & thr1 & Hq1 & Hf1).
  destruct (find_events_and_lags_returns df q2 min_gap_days window_days
              require_single_day H2a H2b) as (events2 & thr2 & Hq2 & Hf2).
  rewrite quantile_in_range in Hq1, Hq2 by assumption.
  pose proof (positive_precip_nonempty _ _ Hr Hp) as Hne.
  destruct (positive_precip (dropna df)) as [|v values] eqn:Ev; [congruence|].
  injection Hq1 as <-. injection Hq2 as <-.
  assert (Hle : (interpolate (sort_values (v :: values)) q1
                 <= interpolate (sort_values (v :: values)) q2)%Q).
  { apply interpolate_monotone; try assumption.
    - apply sort_values_sorted.
    - rewrite sort_values_length. simpl. lia. }
  do 4 eexists. split; [exact Hf1|]. split; [exact Hf2|].
  split; [exact Hle|]. simpl. now apply Qle_bool_iff.
Qed.

Lemma threshold_monotone_witness :
  exists events1 t1 events2 t2,
    find_events_and_lags sample_df (1 # 2) 10 10 true
      = Returned (events1, Some t1) /\
    find_events_and_lags sample_df (9 # 10) 10 10 true
      = Returned (events2, Some t2) /\
    (t1 <= t2)%Q /\
    threshold_le (Some t1) (Some t2) = true.
Proof.
  apply (threshold_monotone sample_df (1 # 2) (9 # 10) 10 10 true
           (mkRec 2 (Qz 5) (Qz 10))).
  - valid_by_computation.
  - valid_by_computation.
  - reflexivity.
  - right. left. reflexivity.
  - reflexivity.
  - intro; discriminate.
Defined.

(** C9, as stated, fails on a valid input without rain: the threshold is NaN
    for both percentiles, and NaN is not below or equal to NaN. *)
Lemma threshold_not_comparable_without_rain :
  let df := [day 1 0 10; day 2 0 12] in
  valid_input df (1 # 4) 10 10 /\ valid_input df (1 # 2) 10 10 /\
  (1 # 4 <= 1 # 2)%Q /\
  find_events_and_lags df (1 # 4) 10 10 true = Returned ([], None) /\
  find_events_and_lags df (1 # 2) 10 10 true = Returned ([], None) /\
  threshold_le None None = false.
Proof.
  cbv zeta. valid_by_computation.
Qed.

(** C10: on a valid input that keeps records after the drop but has no
    strictly positive precipitation, [find_events_and_lags] raises nothing
    and returns an empty event table with a NaN threshold, to which no
    precipitation compares greater or equal. *)
Theorem no_rain_no_events (df : list row) (q : Q)
    (min_gap_days window_days : Z) (require_single_day : bool) :
  valid_input df q min_gap_days window_days ->
  dropna df <> [] ->
  (forall r, In r (dropna df) -> (precip r <= 0)%Q) ->
  find_events_and_lags df q min_gap_days window_days require_single_day
    = Returned ([], None) /\
  quantile (positive_precip (dropna df)) q = Returned None /\
  forall r, In r (dropna df) -> ge_threshold (precip r) None = false.
Proof.
  intros (_ & H0 & H1 & _) _ Hdry.
  apply Qlt_le_weak in H0, H1.
  pose proof (positive_precip_empty _ Hdry) as He.
  assert (Hq : quantile (positive_precip (dropna df)) q = Returned None).
  { rewrite He. apply (quantile_in_range [] q H0 H1). }
  split; [|split; [exact Hq|reflexivity]].
  unfold find_events_and_lags. rewrite Hq. simpl bind.
  unfold event_starts_of. now rewrite scan_starts_nan.
Qed.

Lemma no_rain_no_events_witness :
  find_events_and_lags [day 1 0 10; day 2 0 12; day 5 0 9] (9 # 10) 10 10 true
    = Returned ([], None) /\
  quantile (positive_precip (dropna [day 1 0 10; day 2 0 12; day 5 0 9])) (9 # 10)
    = Returned None /\
  forall r, In r (dropna [day 1 0 10; day 2 0 12; day 5 0 9]) ->
            ge_threshold (precip r) None = false.
Proof.
  apply (no_rain_no_events [day 1 0 10; day 2 0 12; day 5 0 9] (9 # 10) 10 10 true).
  - valid_by_computation.
  - discriminate.
  - intros r [<-|[<-|[<-|[]]]]; intro; discriminate.
Defined.

(** * Further properties of [find_events_and_lags] *)

(** ** Records with a missing value *)

Lemma dropna_app (df1 df2 : list row) :
  dropna (df1 ++ df2) = dropna df1 ++ dropna df2.
Proof.
  induction df1 as [|r df1 IH]; simpl; [reflexivity|].
  destruct (row_precip r), (row_discharge r); simpl; now rewrite ?IH.
Qed.

(** X1: a record that misses its precipitation or its discharge changes
    nothing, wherever it stands in the frame: the result is the one of the
    frame without it. *)
Theorem incomplete_record_ignored (df1 df2 : list row) (r : row) (q : Q)
    (min_gap_days window_days : Z) (require_single_day : bool) :
  row_precip r = None \/ row_discharge r = None ->
  find_events_and_lags (df1 ++ r :: df2) q min_gap_days window_days
    require_single_day
  = find_events_and_lags (df1 ++ df2) q min_gap_days window_days
      require_single_day.
Proof.
  intro H. unfold find_events_and_lags.
  assert (E : dropna (df1 ++ r :: df2) = dropna (df1 ++ df2)).
  { rewrite !dropna_app. f_equal. simpl.
    destruct H as [H|H]; rewrite H; [reflexivity|].
    now destruct (row_precip r). }
  now rewrite E.
Qed.

Lemma incomplete_record_ignored_witness :
  find_events_and_lags
    ([day 1 0 10; day 2 5 10] ++ mkRow 3 (Some (Qz 9)) None :: [day 4 0 30])
    (1 # 2) 10 10 true
  = find_events_and_lags ([day 1 0 10; day 2 5 10] ++ [day 4 0 30])
      (1 # 2) 10 10 true.
Proof.
  apply incomplete_record_ignored. right. reflexivity.
Defined.

(** ** What the scan skips *)

Section Coverage.

Variable threshold : option Q.
Variable min_gap_days : Z.




End Coverage.





(** ** Which starts reach the event table *)

Lemma find_events_and_lags_Returned (df : list row) (q : Q)
    (min_gap_days window_days : Z) (require_single_day : bool)
    (events : list event) (threshold : option Q) :
  find_events_and_lags df q min_gap_days window_days require_single_day
    = Returned (events, threshold) ->
  quantile (positive_precip (dropna df)) q = Returned threshold /\
  build_events (dropna df) threshold window_days require_single_day
    (event_starts_of (dropna df) threshold min_gap_days) []
    = Returned events.
Proof.
  unfold find_events_and_lags. intro H.
  destruct (quantile (positive_precip (dropna df)) q) as [t|]; [|discriminate].
  simpl in H.
  destruct (build_events (dropna df) t window_days require_single_day
              (event_starts_of (dropna df) t min_gap_days) [])
    as [evs|] eqn:Eb; [|discriminate].
  simpl in H. injection H as He Ht. subst evs t. split; [reflexivity|exact Eb].
Qed.

Lemma event_starts_all_present (working : list rec) (threshold : option Q)
    (min_gap_days : Z) :
  Forall (present working) (event_starts_of working threshold min_gap_days).
Proof.
  eapply Forall_impl; [|apply event_starts_present].
  intros s (r & Hr & Hd & _). exists r. auto.
Qed.

Lemma StronglySorted_filter {A : Type} (R : A -> A -> Prop) (f : A -> bool)
    (l : list A) :
  StronglySorted R l -> StronglySorted R (filter f l).
Proof.
  induction 1 as [|x l Hs IH Hx]; simpl; [constructor|].
  destruct (f x); [|assumption].
  constructor; [assumption|].
  rewrite Forall_forall in *. intros y Hy. apply Hx.
  now apply filter_In in Hy.
Qed.

Lemma StronglySorted_pair {A : Type} (R : A -> A -> Prop)
    (pre mid post : list A) (a b : A) :
  StronglySorted R (pre ++ a :: mid ++ b :: post) -> R a b.
Proof.
  induction pre as [|x pre IH]; simpl; intro H.
  - inversion H as [|? ? _ Hall]; subst. rewrite Forall_forall in Hall.
    apply Hall, in_or_app. right. now left.
  - inversion H; subst. now apply IH.
Qed.

Lemma event_starts_apart (working : list rec) (threshold : option Q)
    (min_gap_days : Z) :
  0 <= min_gap_days ->
  StronglySorted (apart min_gap_days)
    (event_starts_of working threshold min_gap_days).
Proof.
  intro Hg.
  assert (Hsep : separated min_gap_days
                   (event_starts_of working threshold min_gap_days)).
  { apply scan_starts_separated; simpl; auto. }
  apply Sorted_StronglySorted.
  - intros a b c Hab Hbc. unfold apart in *. lia.
  - induction (event_starts_of working threshold min_gap_days) as [|x l IH];
      [constructor|].
    destruct l as [|y l]; [repeat constructor|].
    destruct Hsep as [Hxy Hsep].
    constructor; [now apply IH|]. constructor. exact Hxy.
Qed.

Section Table.

Variable working : list rec.
Variable threshold : option Q.
Variable window_days : Z.

Lemma event_of_decides (require_single_day : bool) (start : Z) :
  0 <= window_days -> present working start ->
  (survives working threshold window_days require_single_day start = true /\
   exists ev,
     event_of working threshold window_days require_single_day start
       = Returned (Some ev) /\ event_date ev = start) \/
  (survives working threshold window_days require_single_day start = false /\
   event_of working threshold window_days require_single_day start
     = Returned None).
Proof.
  intros Hw Hp. destruct (own_window working window_days start Hw Hp)
    as (r & Hr & _).
  destruct Hp as (r1 & Hr1 & Hd). unfold event_of, survives.
  set (window := loc_slice working start (start + window_days)) in *.
  destruct window as [|r0 rest] eqn:Ew; [destruct Hr|]. rewrite <- Ew.
  destruct (require_single_day && (1 <? count_sig window threshold));
    [right; auto|].
  left. split; [reflexivity|].
  destruct (idxmax_present window) as (m & Hm & ->); [congruence|]. simpl.
  destruct (loc_row_present _ _ Hm) as (peak_row & ->). simpl.
  destruct (loc_row_present _ _ Hr1) as (start_row & Hs). rewrite Hd in Hs.
  rewrite Hs. simpl. eauto.
Qed.

Lemma build_events_dates (require_single_day : bool) (starts : list Z) :
  0 <= window_days -> Forall (present working) starts ->
  forall events result,
  build_events working threshold window_days require_single_day starts events
    = Returned result ->
  map event_date result
  = map event_date events ++
    filter (survives working threshold window_days require_single_day) starts.
Proof.
  intro Hw. induction 1 as [|s starts Hs Hall IH]; intros events result H;
    simpl in H |- *.
  - injection H as <-. now rewrite app_nil_r.
  - destruct (event_of_decides require_single_day s Hw Hs)
      as [(-> & ev & He & Hd)|(-> & He)]; rewrite He in H; simpl in H.
    + rewrite (IH _ _ H), map_app. simpl. rewrite Hd.
      now rewrite <- app_assoc.
    + now apply IH.
Qed.

(** The single-day rule only removes events: the body of the loop with the
    rule is the body without it followed by the test on [n_sig]. *)
Lemma event_of_single_day (start : Z) :
  present working start ->
  event_of working threshold window_days true start
  = (o <- event_of working threshold window_days false start ;;
     Returned match o with
              | Some ev =>
                  if n_sig_days_in_window ev <=? 1 then Some ev else None
              | None => None
              end).
Proof.
  intros (r1 & Hr1 & Hd). unfold event_of.
  set (window := loc_slice working start (start + window_days)).
  destruct window as [|r0 rest] eqn:Ew; [reflexivity|]. rewrite <- Ew.
  destruct (idxmax_present window) as (m & Hm & ->); [congruence|].
  cbn [bind andb].
  destruct (loc_row_present _ _ Hm) as (peak_row & ->). cbn [bind].
  destruct (loc_row_present _ _ Hr1) as (start_row & Hs). rewrite Hd in Hs.
  rewrite Hs. cbn [bind n_sig_days_in_window].
  rewrite Z.leb_antisym.
  now destruct (1 <? count_sig window threshold).
Qed.

Lemma build_events_single_day (starts : list Z) :
  Forall (present working) starts ->
  forall events,
  build_events working threshold window_days true starts
    (filter (fun ev => n_sig_days_in_window ev <=? 1) events)
  = (result <- build_events working threshold window_days false starts events ;;
     Returned (filter (fun ev => n_sig_days_in_window ev <=? 1) result)).
Proof.
  induction 1 as [|s starts Hs Hall IH]; intro events; simpl; [reflexivity|].
  rewrite (event_of_single_day s Hs).
  destruct (event_of working threshold window_days false s) as [[ev|]|];
    simpl; [| apply IH | reflexivity].
  rewrite <- IH, filter_app. simpl.
  destruct (n_sig_days_in_window ev <=? 1); [reflexivity|].
  now rewrite app_nil_r.
Qed.

Lemma loc_slice_backwards (start : Z) :
  window_days < 0 -> loc_slice working start (start + window_days) = [].
Proof.
  intro Hw. unfold loc_slice.
  induction working as [|r l IH]; simpl; [reflexivity|].
  destruct (start <=? date r) eqn:E1; simpl; [|exact IH].
  destruct (date r <=? start + window_days) eqn:E2; [|exact IH].
  apply Z.leb_le in E1, E2. lia.
Qed.

Lemma build_events_backwards (require_single_day : bool) (starts : list Z) :
  window_days < 0 ->
  forall events,
  build_events working threshold window_days require_single_day starts events
  = Returned events.
Proof.
  intros Hw. induction starts as [|s starts IH]; intro events; simpl;
    [reflexivity|].
  unfold event_of. rewrite (loc_slice_backwards s Hw). simpl. apply IH.
Qed.

End Table.

(** X4: on a valid input the event table has one row for each event start
    that passes the single-day test on its window, in the order of the
    starts, and no other row. *)
Theorem table_is_surviving_starts (df : list row) (q : Q)
    (min_gap_days window_days : Z) (require_single_day : bool)
    (events : list event) (threshold : option Q) :
  valid_input df q min_gap_days window_days ->
  find_events_and_lags df q min_gap_days window_days require_single_day
    = Returned (events, threshold) ->
  map event_date events
  = filter (survives (dropna df) threshold window_days require_single_day)
      (event_starts_of (dropna df) threshold min_gap_days).
Proof.
  intros (_ & _ & _ & _ & Hw) H.
  apply find_events_and_lags_Returned in H. destruct H as [_ Hb].
  apply build_events_dates in Hb; auto.
  apply event_starts_all_present.
Qed.

Lemma table_is_surviving_starts_witness :
  map event_date [mkEvent 30 31 1 (Qz 8) (Qz 7) 1]
  = filter (survives (dropna storm_df) (Some (20 # 4)) 10 true)
      (event_starts_of (dropna storm_df) (Some (20 # 4)) 10).
Proof.
  apply (table_is_surviving_starts storm_df (1 # 4) 10 10 true).
  - valid_by_computation.
  - reflexivity.
Defined.

(** X5: on a valid input any two rows of the event table, not only
    neighbouring ones, have event dates more than [min_gap_days] days apart,
    the earlier row first; so the table is in strictly increasing date order
    and no date appears twice. *)
Theorem table_dates_apart (df : list row) (q : Q)
    (min_gap_days window_days : Z) (require_single_day : bool)
    (events : list event) (threshold : option Q) :
  valid_input df q min_gap_days window_days ->
  find_events_and_lags df q min_gap_days window_days require_single_day
    = Returned (events, threshold) ->
  StronglySorted (apart min_gap_days) (map event_date events) /\
  StronglySorted Z.lt (map event_date events).
Proof.
  intros (_ & _ & _ & Hg & Hw) H.
  apply find_events_and_lags_Returned in H. destruct H as [_ Hb].
  apply build_events_dates in Hb; auto using event_starts_all_present.
  simpl in Hb.
  assert (Ha : StronglySorted (apart min_gap_days) (map event_date events)).
  { rewrite Hb. now apply StronglySorted_filter, event_starts_apart. }
  split; [exact Ha|].
  clear Hb. induction Ha as [|x l Hs IH Hx]; constructor; [assumption|].
  eapply Forall_impl; [|exact Hx]. unfold apart. intros; lia.
Qed.

Lemma table_dates_apart_witness :
  let events := [mkEvent 2 4 2 (Qz 30) (Qz 5) 1;
                 mkEvent 21 21 0 (Qz 14) (Qz 7) 1] in
  StronglySorted (apart 10) (map event_date events) /\
  StronglySorted Z.lt (map event_date events).
Proof.
  apply (table_dates_apart sample_df (1 # 2) 10 10 true _ (Some (10 # 2))).
  - valid_by_computation.
  - reflexivity.
Defined.

(** X6: the single-day rule only filters.  For every input the call with
    [require_single_day] set gives the threshold of the call without it and,
    of its event table, the rows with [n_sig_days_in_window] at most 1, in the
    same order; if one call raises, so does the other. *)
Theorem single_day_filters (df : list row) (q : Q)
    (min_gap_days window_days : Z) :
  find_events_and_lags df q min_gap_days window_days true
  = (r <- find_events_and_lags df q min_gap_days window_days false ;;
     Returned (filter (fun ev => n_sig_days_in_window ev <=? 1) (fst r),
               snd r)).
Proof.
  unfold find_events_and_lags.
  destruct (quantile (positive_precip (dropna df)) q) as [threshold|];
    [|reflexivity].
  cbn [bind].
  pose proof (build_events_single_day (dropna df) threshold window_days
                (event_starts_of (dropna df) threshold min_gap_days)
                (event_starts_all_present _ _ _) []) as H.
  simpl filter in H. rewrite H.
  now destruct (build_events (dropna df) threshold window_days false
                  (event_starts_of (dropna df) threshold min_gap_days) []).
Qed.

(** X7: a negative [window_days] is accepted and makes every window empty:
    on a frame in date order, with dates and day counts in the range of a
    timestamp, and for a percentile in [0, 1], the call returns the threshold
    and an empty event table. *)
Theorem negative_window_no_events (df : list row) (q : Q)
    (min_gap_days window_days : Z) (require_single_day : bool) :
  increasing (map row_date df) = true ->
  in_timestamp_range df min_gap_days window_days = true ->
  window_days < 0 -> (0 <= q)%Q -> (q <= 1)%Q ->
  exists threshold,
    quantile (positive_precip (dropna df)) q = Returned threshold /\
    find_events_and_lags df q min_gap_days window_days require_single_day
      = Returned ([], threshold).
Proof.
  intros _ _ Hw H0 H1. unfold find_events_and_lags.
  rewrite (quantile_in_range _ q H0 H1). eexists. split; [reflexivity|].
  cbn [bind]. now rewrite build_events_backwards.
Qed.

Lemma negative_window_no_events_witness :
  exists threshold,
    quantile (positive_precip (dropna storm_df)) (1 # 4) = Returned threshold /\
    find_events_and_lags storm_df (1 # 4) 10 (-1) false
      = Returned ([], threshold).
Proof.
  apply negative_window_no_events;
    [reflexivity|reflexivity|lia| |]; intro; discriminate.
Defined.

(** ** Bounds on the fields of an event *)

Lemma count_sig_le_length (window : list rec) (threshold : option Q) :
  count_sig window threshold <= Z.of_nat (length window).
Proof.
  unfold count_sig. apply inj_le.
  induction window as [|r l IH]; simpl; [lia|].
  destruct (ge_threshold (precip r) threshold); simpl; lia.
Qed.

(** Strictly increasing day numbers between [a] and [b]: at most one per
    day. *)
Lemma days_in_range (l : list Z) :
  StronglySorted Z.lt l ->
  forall a b, Forall (fun d => a <= d <= b) l ->
  Z.of_nat (length l) <= Z.max 0 (b - a + 1).
Proof.
  induction 1 as [|x l Hs IH Hx]; intros a b Hr; [simpl; lia|].
  inversion Hr as [|? ? Hxr Hr']; subst.
  assert (Hl : Forall (fun d => x + 1 <= d <= b) l).
  { rewrite Forall_forall in *. intros d Hd.
    pose proof (Hx d Hd). pose proof (Hr' d Hd). lia. }
  specialize (IH (x + 1) b Hl). simpl length. lia.
Qed.

Lemma event_of_window_peak (working : list rec) (threshold : option Q)
    (window_days : Z) (require_single_day : bool) (start : Z) (ev : event) :
  event_of working threshold window_days require_single_day start
    = Returned (Some ev) ->
  event_date ev = start /\ start <= peak_date ev <= start + window_days.
Proof.
  intro He.
  destruct (event_of_Some _ _ _ _ _ _ He)
    as (pk & peak_row & start_row & _ & Hi & _ & _ & ->).
  destruct (idxmax_In _ _ Hi) as (m & Hm & Hd).
  apply loc_slice_In in Hm. simpl. split; [reflexivity|lia].
Qed.

(** X8: on a valid input every row of the event table, with or without the
    single-day rule, has [n_sig_days_in_window] between 1 (the start itself)
    and [window_days + 1] (one record per day of the window). *)
Theorem n_sig_bounds (df : list row) (q : Q)
    (min_gap_days window_days : Z) (require_single_day : bool)
    (events : list event) (threshold : option Q) (ev : event) :
  valid_input df q min_gap_days window_days ->
  find_events_and_lags df q min_gap_days window_days require_single_day
    = Returned (events, threshold) ->
  In ev events ->
  1 <= n_sig_days_in_window ev <= window_days + 1.
Proof.
  intros Hv H Hev.
  pose proof (valid_input_sorted _ _ _ _ Hv) as Hsorted.
  destruct Hv as (_ & _ & _ & _ & Hw).
  destruct (emitted_event _ _ _ _ _ _ _ _ H Hev) as (_ & Hs & He).
  destruct (event_of_Some _ _ _ _ _ _ He)
    as (pk & peak_row & start_row & _ & _ & _ & _ & E).
  pose proof (event_starts_present (dropna df) threshold min_gap_days) as Hp.
  rewrite Forall_forall in Hp. destruct (Hp _ Hs) as (r & Hr & Hd & Hge).
  set (window := loc_slice (dropna df) (event_date ev)
                   (event_date ev + window_days)) in *.
  assert (Hn : n_sig_days_in_window ev = count_sig window threshold).
  { rewrite E at 1. reflexivity. }
  rewrite Hn. split.
  - apply count_sig_pos with r; [|exact Hge].
    apply loc_slice_In. split; [assumption|lia].
  - pose proof (count_sig_le_length window threshold) as Hc.
    assert (Hlen : Z.of_nat (length (map date window))
                   <= Z.max 0 (event_date ev + window_days - event_date ev + 1)).
    { apply days_in_range.
      - now apply filter_dates_sorted.
      - apply Forall_forall. intros d Hin.
        apply in_map_iff in Hin as (x & <- & Hx).
        now apply loc_slice_In in Hx. }
    rewrite length_map in Hlen. lia.
Qed.

Lemma n_sig_bounds_witness :
  1 <= n_sig_days_in_window (mkEvent 1 2 1 (Qz 25) (Qz 5) 2) <= 10 + 1.
Proof.
  apply (n_sig_bounds storm_df (1 # 4) 10 10 false
           [mkEvent 1 2 1 (Qz 25) (Qz 5) 2; mkEvent 30 31 1 (Qz 8) (Qz 7) 1]
           (Some (20 # 4))).
  - valid_by_computation.
  - reflexivity.
  - left. reflexivity.
Defined.

(** X9: on a valid input, for every row of the event table, [lag_days] is
    [peak_date - event_date] and at most [window_days]; [peak_discharge] is at
    least the discharge recorded on the event date, strictly more when the
    lag is positive and exactly that discharge when the lag is zero. *)
Theorem peak_against_event_day (df : list row) (q : Q)
    (min_gap_days window_days : Z) (require_single_day : bool)
    (events : list event) (threshold : option Q) (ev : event) :
  valid_input df q min_gap_days window_days ->
  find_events_and_lags df q min_gap_days window_days require_single_day
    = Returned (events, threshold) ->
  In ev events ->
  lag_days ev = peak_date ev - event_date ev /\
  lag_days ev <= window_days /\
  exists r,
    In r (dropna df) /\ date r = event_date ev /\
    (discharge r <= peak_discharge ev)%Q /\
    (0 < lag_days ev -> (discharge r < peak_discharge ev)%Q) /\
    (lag_days ev = 0 -> peak_discharge ev = discharge r).
Proof.
  intros Hv H Hev.
  pose proof (valid_input_sorted _ _ _ _ Hv) as Hsorted.
  destruct Hv as (_ & _ & _ & _ & Hw).
  destruct (emitted_event _ _ _ _ _ _ _ _ H Hev) as (_ & Hs & He).
  destruct (event_of_window_peak _ _ _ _ _ _ He) as [_ Hpk].
  destruct (event_of_Some _ _ _ _ _ _ He)
    as (pk & peak_row & start_row & _ & Hi & Hp & _ & E).
  set (window := loc_slice (dropna df) (event_date ev)
                   (event_date ev + window_days)) in *.
  assert (Hws : StronglySorted Z.lt (map date window))
    by now apply filter_dates_sorted.
  destruct (idxmax_first _ _ Hws Hi) as (m & Hm & Hd & Hmax).
  apply loc_row_Returned in Hp. destruct Hp as [Hpin Hpd].
  assert (peak_row = m) as ->.
  { apply (sorted_dates_unique window Hws); [assumption|assumption|congruence]. }
  pose proof (event_starts_present (dropna df) threshold min_gap_days) as Hpr.
  rewrite Forall_forall in Hpr. destruct (Hpr _ Hs) as (r & Hr & Hrd & _).
  assert (Hrw : In r window).
  { apply loc_slice_In. split; [assumption|lia]. }
  destruct (Hmax r Hrw) as [Hle Hfirst].
  assert (El : lag_days ev = peak_date ev - event_date ev)
    by (rewrite E; reflexivity).
  assert (Epk : peak_date ev = pk) by (rewrite E; reflexivity).
  assert (Epd : peak_discharge ev = discharge m) by (rewrite E; reflexivity).
  split; [exact El|]. split; [lia|].
  exists r. rewrite Epd. repeat split; auto.
  - intro Hlag. apply Qnot_le_lt. intro Hge. specialize (Hfirst Hge). lia.
  - intro Hlag. f_equal.
    apply (sorted_dates_unique window Hws); [assumption|assumption|lia].
Qed.

Lemma peak_against_event_day_witness :
  let ev := mkEvent 2 4 2 (Qz 30) (Qz 5) 1 in
  lag_days ev = peak_date ev - event_date ev /\
  lag_days ev <= 10 /\
  exists r,
    In r (dropna sample_df) /\ date r = event_date ev /\
    (discharge r <= peak_discharge ev)%Q /\
    (0 < lag_days ev -> (discharge r < peak_discharge ev)%Q) /\
    (lag_days ev = 0 -> peak_discharge ev = discharge r).
Proof.
  apply (peak_against_event_day sample_df (1 # 2) 10 10 true
           [mkEvent 2 4 2 (Qz 30) (Qz 5) 1; mkEvent 21 21 0 (Qz 14) (Qz 7) 1]
           (Some (10 # 2))).
  - valid_by_computation.
  - reflexivity.
  - left. reflexivity.
Defined.

(** X10: when [window_days] is not larger than [min_gap_days], the windows of
    the events do not overlap: on a valid input the peak of a row of the event
    table is dated before the event date of every later row. *)
Theorem peaks_before_later_events (df : list row) (q : Q)
    (min_gap_days window_days : Z) (require_single_day : bool)
    (events : list event) (threshold : option Q)
    (pre mid post : list event) (e e' : event) :
  valid_input df q min_gap_days window_days ->
  window_days <= min_gap_days ->
  find_events_and_lags df q min_gap_days window_days require_single_day
    = Returned (events, threshold) ->
  events = pre ++ e :: mid ++ e' :: post ->
  peak_date e < event_date e'.
Proof.
  intros Hv Hwg H Ev.
  assert (He : In e events).
  { rewrite Ev. apply in_or_app. right. now left. }
  destruct (emitted_event _ _ _ _ _ _ _ _ H He) as (_ & _ & Hof).
  destruct (event_of_window_peak _ _ _ _ _ _ Hof) as [_ Hpk].
  destruct Hv as (_ & _ & _ & Hg & Hw).
  apply find_events_and_lags_Returned in H. destruct H as [_ Hb].
  apply build_events_dates in Hb; auto using event_starts_all_present.
  simpl in Hb.
  assert (Ha : StronglySorted (apart min_gap_days) (map event_date events)).
  { rewrite Hb. now apply StronglySorted_filter, event_starts_apart. }
  rewrite Ev, map_app in Ha. simpl in Ha. rewrite map_app in Ha. simpl in Ha.
  apply StronglySorted_pair in Ha. unfold apart in Ha. lia.
Qed.

Lemma peaks_before_later_events_witness :
  peak_date (mkEvent 2 4 2 (Qz 30) (Qz 5) 1)
  < event_date (mkEvent 21 21 0 (Qz 14) (Qz 7) 1).
Proof.
  apply (peaks_before_later_events sample_df (1 # 2) 10 10 true
           [mkEvent 2 4 2 (Qz 30) (Qz 5) 1; mkEvent 21 21 0 (Qz 14) (Qz 7) 1]
           (Some (10 # 2)) [] [] []).
  - valid_by_computation.
  - lia.
  - reflexivity.
  - reflexivity.
Defined.

(** ** Where the threshold lies *)

Lemma insert_sorted_In (x y : Q) (l : list Q) :
  In y (insert_sorted x l) <-> y = x \/ In y l.
Proof.
  induction l as [|z l IH]; simpl.
  - intuition.
  - destruct (Qle_bool x z); simpl; [intuition|]. rewrite IH. intuition.
Qed.

Lemma sort_values_In (y : Q) (l : list Q) :
  In y (sort_values l) <-> In y l.
Proof.
  induction l as [|x l IH]; simpl; [tauto|].
  rewrite insert_sorted_In, IH. intuition.
Qed.

Lemma positive_precip_In (working : list rec) (v : Q) :
  In v (positive_precip working) <->
  exists r, In r working /\ (0 < precip r)%Q /\ precip r = v.
Proof.
  unfold positive_precip. rewrite in_map_iff. split.
  - intros (r & E & Hr). apply filter_In in Hr as [Hr Hp].
    apply Qlt_bool_iff in Hp. eauto.
  - intros (r & Hr & Hp & E). exists r. split; [assumption|].
    apply filter_In. split; [assumption|]. now apply Qlt_bool_iff.
Qed.

Section Position.

Variable values : list Q.
Hypothesis values_nonempty : values <> [].

Let n := Z.of_nat (length (sort_values values)).

Lemma sorted_count : 1 <= n.
Proof.
  unfold n. rewrite sort_values_length.
  destruct values; [congruence|]. simpl length. lia.
Qed.

Lemma order_statistic_In (k : Z) :
  0 <= k <= n - 1 -> In (nth (Z.to_nat k) (sort_values values) 0%Q) values.
Proof.
  intro Hk. apply sort_values_In, nth_In. unfold n in Hk. lia.
Qed.

(** The quantile lies between two of the values. *)
Lemma interpolate_between_values (q : Q) :
  (0 <= q)%Q -> (q <= 1)%Q ->
  exists a b, In a values /\ In b values /\
    (a <= interpolate (sort_values values) q)%Q /\
    (interpolate (sort_values values) q <= b)%Q.
Proof.
  intros H0 H1. pose proof sorted_count as Hn.
  pose proof (virtual_index_bounds n q Hn H0 H1) as Hlo.
  destruct (interpolate_between (sort_values values) (sort_values_sorted values))
    with (q := q) as [Ha Hb]; try assumption.
  { fold n. lia. }
  cbv zeta in Ha, Hb. fold n in Ha, Hb.
  eexists. eexists. split; [|split; [|split; [exact Ha|exact Hb]]];
    apply order_statistic_In; lia.
Qed.

(** A virtual index that is a whole number selects an order statistic. *)
Lemma interpolate_at_index (q : Q) (k : Z) :
  (inject_Z (n - 1) * q == inject_Z k)%Q ->
  (interpolate (sort_values values) q
   == nth (Z.to_nat k) (sort_values values) 0)%Q.
Proof.
  intro Hk. unfold interpolate. fold n.
  assert (Hf : Qfloor (inject_Z (n - 1) * q) = k).
  { rewrite Hk. apply Qfloor_Z. }
  rewrite Hf, Hk. ring.
Qed.

Lemma order_statistic_le (k : Z) (v : Q) :
  In v values -> k = n - 1 ->
  (v <= nth (Z.to_nat k) (sort_values values) 0)%Q.
Proof.
  intros Hv ->. apply sort_values_In in Hv.
  destruct (In_nth _ _ 0%Q Hv) as (i & Hi & <-).
  apply sorted_nth_le; [apply sort_values_sorted| |]; unfold n; lia.
Qed.

Lemma order_statistic_ge (v : Q) :
  In v values -> (nth 0 (sort_values values) 0 <= v)%Q.
Proof.
  intro Hv. apply sort_values_In in Hv.
  destruct (In_nth _ _ 0%Q Hv) as (i & Hi & <-).
  apply sorted_nth_le; [apply sort_values_sorted| |]; lia.
Qed.

End Position.

(** X11: for a percentile in [0, 1] and a frame in date order with at least
    one strictly positive precipitation, dates and day counts in the range
    of a timestamp, the threshold is a number that lies between two of the
    strictly positive precipitation values; in particular it is strictly
    positive. *)
Theorem threshold_between_rain_values (df : list row) (q : Q)
    (min_gap_days window_days : Z) (require_single_day : bool) (r : rec) :
  increasing (map row_date df) = true ->
  in_timestamp_range df min_gap_days window_days = true ->
  (0 <= q)%Q -> (q <= 1)%Q ->
  In r (dropna df) -> (0 < precip r)%Q ->
  exists events t a b,
    find_events_and_lags df q min_gap_days window_days require_single_day
      = Returned (events, Some t) /\
    In a (dropna df) /\ (0 < precip a)%Q /\
    In b (dropna df) /\ (0 < precip b)%Q /\
    (precip a <= t)%Q /\ (t <= precip b)%Q /\ (0 < t)%Q.
Proof.
  intros _ _ H0 H1 Hr Hp.
  destruct (find_events_and_lags_returns df q min_gap_days window_days
              require_single_day H0 H1) as (events & thr & Hq & Hf).
  rewrite quantile_in_range in Hq by assumption.
  pose proof (positive_precip_nonempty _ _ Hr Hp) as Hne.
  destruct (interpolate_between_values _ Hne q H0 H1)
    as (va & vb & Ha & Hb & Hla & Hlb).
  apply positive_precip_In in Ha as (a & Hain & Hapos & <-).
  apply positive_precip_In in Hb as (b & Hbin & Hbpos & <-).
  destruct (positive_precip (dropna df)) as [|v values] eqn:Ev; [congruence|].
  injection Hq as <-.
  exists events, (interpolate (sort_values (v :: values)) q), a, b.
  repeat split; auto.
  eapply Qlt_le_trans; [exact Hapos|exact Hla].
Qed.

Lemma threshold_between_rain_values_witness :
  exists events t a b,
    find_events_and_lags sample_df (9 # 10) 10 10 true
      = Returned (events, Some t) /\
    In a (dropna sample_df) /\ (0 < precip a)%Q /\
    In b (dropna sample_df) /\ (0 < precip b)%Q /\
    (precip a <= t)%Q /\ (t <= precip b)%Q /\ (0 < t)%Q.
Proof.
  apply (threshold_between_rain_values sample_df (9 # 10) 10 10 true
           (mkRec 2 (Qz 5) (Qz 10))).
  - reflexivity.
  - reflexivity.
  - intro; discriminate.
  - intro; discriminate.
  - right. left. reflexivity.
  - reflexivity.
Defined.

(** X12: when all strictly positive precipitation values are one value [v],
    a single rain day for instance, the threshold is [v] for every
    percentile in [0, 1], on a frame in date order with dates and day counts
    in the range of a timestamp. *)
Theorem threshold_of_equal_rain (df : list row) (q : Q)
    (min_gap_days window_days : Z) (require_single_day : bool)
    (r : rec) (v : Q) :
  increasing (map row_date df) = true ->
  in_timestamp_range df min_gap_days window_days = true ->
  (0 <= q)%Q -> (q <= 1)%Q ->
  In r (dropna df) -> (0 < precip r)%Q ->
  (forall r', In r' (dropna df) -> (0 < precip r')%Q -> (precip r' == v)%Q) ->
  exists events t,
    find_events_and_lags df q min_gap_days window_days require_single_day
      = Returned (events, Some t) /\ (t == v)%Q.
Proof.
  intros _ _ H0 H1 Hr Hp Hall.
  destruct (find_events_and_lags_returns df q min_gap_days window_days
              require_single_day H0 H1) as (events & thr & Hq & Hf).
  rewrite quantile_in_range in Hq by assumption.
  pose proof (positive_precip_nonempty _ _ Hr Hp) as Hne.
  destruct (interpolate_between_values _ Hne q H0 H1)
    as (va & vb & Ha & Hb & Hla & Hlb).
  apply positive_precip_In in Ha as (a & Hain & Hapos & <-).
  apply positive_precip_In in Hb as (b & Hbin & Hbpos & <-).
  pose proof (Hall a Hain Hapos) as Ea. pose proof (Hall b Hbin Hbpos) as Eb.
  destruct (positive_precip (dropna df)) as [|x values] eqn:Ev; [congruence|].
  injection Hq as <-.
  exists events, (interpolate (sort_values (x :: values)) q).
  split; [exact Hf|]. apply Qle_antisym; lra.
Qed.

Lemma threshold_of_equal_rain_witness :
  exists events t,
    find_events_and_lags [day 1 0 10; day 5 5 10; day 6 0 10] (9 # 10) 10 10 true
      = Returned (events, Some t) /\ (t == Qz 5)%Q.
Proof.
  apply (threshold_of_equal_rain [day 1 0 10; day 5 5 10; day 6 0 10] (9 # 10)
           10 10 true (mkRec 5 (Qz 5) (Qz 10))).
  - reflexivity.
  - reflexivity.
  - intro; discriminate.
  - intro; discriminate.
  - right. left. reflexivity.
  - reflexivity.
  - intros r' [<-|[<-|[<-|[]]]] Hpos; try reflexivity; discriminate.
Defined.

(** X13: the percentile 0 is accepted and gives the smallest strictly
    positive precipitation as threshold, on a frame in date order with dates
    and day counts in the range of a timestamp. *)
Theorem threshold_at_zero_is_minimum (df : list row)
    (min_gap_days window_days : Z) (require_single_day : bool) (r : rec) :
  increasing (map row_date df) = true ->
  in_timestamp_range df min_gap_days window_days = true ->
  In r (dropna df) -> (0 < precip r)%Q ->
  exists events t a,
    find_events_and_lags df 0 min_gap_days window_days require_single_day
      = Returned (events, Some t) /\
    In a (dropna df) /\ (0 < precip a)%Q /\ (t == precip a)%Q /\
    forall r', In r' (dropna df) -> (0 < precip r')%Q -> (t <= precip r')%Q.
Proof.
  intros _ _ Hr Hp.
  assert (H0 : (0 <= 0)%Q) by apply Qle_refl.
  assert (H1 : (0 <= 1)%Q) by (intro; discriminate).
  destruct (find_events_and_lags_returns df 0 min_gap_days window_days
              require_single_day H0 H1) as (events & thr & Hq & Hf).
  rewrite quantile_in_range in Hq by assumption.
  pose proof (positive_precip_nonempty _ _ Hr Hp) as Hne.
  pose proof (sorted_count _ Hne) as Hn.
  assert (Hi : (interpolate (sort_values (positive_precip (dropna df))) 0
                == nth (Z.to_nat 0) (sort_values (positive_precip (dropna df))) 0)%Q).
  { apply interpolate_at_index. change (inject_Z 0) with 0%Q. ring. }
  pose proof (order_statistic_In (positive_precip (dropna df)) 0) as Hin.
  apply positive_precip_In in Hin as (a & Hain & Hapos & Ea); [|lia].
  destruct (positive_precip (dropna df)) as [|x values] eqn:Ev; [congruence|].
  injection Hq as <-.
  exists events, (interpolate (sort_values (x :: values)) 0), a.
  split; [exact Hf|]. split; [exact Hain|]. split; [exact Hapos|].
  split; [now rewrite Hi, Ea|].
  intros r' Hr' Hp'. rewrite Hi.
  apply (order_statistic_ge (x :: values)).
  rewrite <- Ev. apply positive_precip_In. eauto.
Qed.

Lemma threshold_at_zero_is_minimum_witness :
  exists events t a,
    find_events_and_lags sample_df 0 10 10 true = Returned (events, Some t) /\
    In a (dropna sample_df) /\ (0 < precip a)%Q /\ (t == precip a)%Q /\
    forall r', In r' (dropna sample_df) -> (0 < precip r')%Q ->
               (t <= precip r')%Q.
Proof.
  apply (threshold_at_zero_is_minimum sample_df 10 10 true
           (mkRec 2 (Qz 5) (Qz 10))).
  - reflexivity.
  - reflexivity.
  - right. left. reflexivity.
  - reflexivity.
Defined.

(** X14: the percentile 1 is accepted and gives the largest precipitation as
    threshold, so that, on a frame in date order with dates and day counts
    in the range of a timestamp, every row of the event table has that
    largest precipitation as [rain_amount]. *)
Theorem threshold_at_one_is_maximum (df : list row)
    (min_gap_days window_days : Z) (require_single_day : bool) (r : rec) :
  increasing (map row_date df) = true ->
  in_timestamp_range df min_gap_days window_days = true ->
  In r (dropna df) -> (0 < precip r)%Q ->
  exists events t b,
    find_events_and_lags df 1 min_gap_days window_days require_single_day
      = Returned (events, Some t) /\
    In b (dropna df) /\ (t == precip b)%Q /\
    (forall r', In r' (dropna df) -> (precip r' <= t)%Q) /\
    (forall ev, In ev events -> (rain_amount ev == t)%Q).
Proof.
  intros Hinc _ Hr Hp.
  assert (Hsorted : StronglySorted Z.lt (map date (dropna df)))
    by now apply dropna_sorted, increasing_sorted.
  assert (H0 : (0 <= 1)%Q) by (intro; discriminate).
  assert (H1 : (1 <= 1)%Q) by apply Qle_refl.
  destruct (find_events_and_lags_returns df 1 min_gap_days window_days
              require_single_day H0 H1) as (events & thr & Hq & Hf).
  rewrite quantile_in_range in Hq by assumption.
  pose proof (positive_precip_nonempty _ _ Hr Hp) as Hne.
  pose proof (sorted_count _ Hne) as Hn.
  set (k := Z.of_nat (length (sort_values (positive_precip (dropna df)))) - 1)
    in *.
  assert (Hi : (interpolate (sort_values (positive_precip (dropna df))) 1
                == nth (Z.to_nat k) (sort_values (positive_precip (dropna df))) 0)%Q).
  { apply interpolate_at_index. fold k. ring. }
  pose proof (order_statistic_In (positive_precip (dropna df)) k) as Hin.
  apply positive_precip_In in Hin as (b & Hbin & Hbpos & Eb); [|lia].
  assert (Hmax : forall r', In r' (dropna df) ->
            (precip r' <= interpolate
                            (sort_values (positive_precip (dropna df))) 1)%Q).
  { intros r' Hr'. rewrite Hi.
    destruct (Qlt_le_dec 0 (precip r')) as [Hpos|Hneg].
    - apply (order_statistic_le _ k); [|reflexivity].
      apply positive_precip_In. eauto.
    - rewrite <- Eb. lra. }
  destruct (positive_precip (dropna df)) as [|x values] eqn:Ev; [congruence|].
  injection Hq as <-.
  exists events, (interpolate (sort_values (x :: values)) 1), b.
  split; [exact Hf|]. split; [exact Hbin|]. split; [now rewrite Hi, Eb|].
  split; [exact Hmax|].
  intros ev Hev.
  destruct (emitted_event _ _ _ _ _ _ _ _ Hf Hev) as (_ & _ & He).
  destruct (event_of_Some _ _ _ _ _ _ He)
    as (pk & peak_row & start_row & _ & _ & _ & Hl & E).
  apply loc_row_Returned in Hl. destruct Hl as [Hin Hdate].
  assert (Era : rain_amount ev = precip start_row) by (rewrite E; reflexivity).
  rewrite Era. apply Qle_antisym; [now apply Hmax|].
  (* the start row met the threshold in the scan *)
  destruct (emitted_event _ _ _ _ _ _ _ _ Hf Hev) as (_ & Hs & _).
  pose proof (event_starts_present (dropna df)
                (Some (interpolate (sort_values (x :: values)) 1))
                min_gap_days) as Hpr.
  rewrite Forall_forall in Hpr. destruct (Hpr _ Hs) as (r0 & Hr0 & Hd0 & Hge).
  assert (start_row = r0) as ->.
  { apply (sorted_dates_unique _ Hsorted); [assumption|assumption|congruence]. }
  simpl in Hge. now apply Qle_bool_iff in Hge.
Qed.

Lemma threshold_at_one_is_maximum_witness :
  exists events t b,
    find_events_and_lags storm_df 1 10 10 false = Returned (events, Some t) /\
    In b (dropna storm_df) /\ (t == precip b)%Q /\
    (forall r', In r' (dropna storm_df) -> (precip r' <= t)%Q) /\
    (forall ev, In ev events -> (rain_amount ev == t)%Q).
Proof.
  apply (threshold_at_one_is_maximum storm_df 10 10 false
           (mkRec 1 (Qz 5) (Qz 10))).
  - reflexivity.
  - reflexivity.
  - left. reflexivity.
  - reflexivity.
Defined.

(** X15: a day without rain never gives an event: on a valid input every row
    of the event table has a strictly positive [rain_amount]. *)
Theorem events_have_rain (df : list row) (q : Q)
    (min_gap_days window_days : Z) (require_single_day : bool)
    (events : list event) (threshold : option Q) (ev : event) :
  valid_input df q min_gap_days window_days ->
  find_events_and_lags df q min_gap_days window_days require_single_day
    = Returned (events, threshold) ->
  In ev events ->
  (0 < rain_amount ev)%Q.
Proof.
  intros Hv H Hev.
  pose proof (valid_input_sorted _ _ _ _ Hv) as Hsorted.
  destruct Hv as (_ & H0 & H1 & _). apply Qlt_le_weak in H0, H1.
  destruct (emitted_event _ _ _ _ _ _ _ _ H Hev) as (Hq & Hs & He).
  destruct (event_of_Some _ _ _ _ _ _ He)
    as (pk & peak_row & start_row & _ & _ & _ & Hl & E).
  apply loc_row_Returned in Hl. destruct Hl as [Hin Hdate].
  pose proof (event_starts_present (dropna df) threshold min_gap_days) as Hpr.
  rewrite Forall_forall in Hpr. destruct (Hpr _ Hs) as (r0 & Hr0 & Hd0 & Hge).
  assert (start_row = r0) as ->.
  { apply (sorted_dates_unique _ Hsorted); [assumption|assumption|congruence]. }
  assert (Era : rain_amount ev = precip r0) by (rewrite E; reflexivity).
  rewrite Era.
  rewrite quantile_in_range in Hq by assumption.
  destruct (positive_precip (dropna df)) as [|x values] eqn:Ev.
  - injection Hq as <-. discriminate.
  - injection Hq as <-. simpl in Hge. apply Qle_bool_iff in Hge.
    assert (Hne : x :: values <> []) by discriminate.
    destruct (interpolate_between_values _ Hne q H0 H1)
      as (va & _ & Ha & _ & Hla & _).
    rewrite <- Ev in Ha. apply positive_precip_In in Ha as (a & _ & Hapos & <-).
    eapply Qlt_le_trans; [exact Hapos|].
    eapply Qle_trans; [exact Hla|exact Hge].
Qed.

Lemma events_have_rain_witness :
  (0 < rain_amount (mkEvent 30 31 1 (Qz 8) (Qz 7) 1))%Q.
Proof.
  apply (events_have_rain storm_df (1 # 4) 10 10 true
           [mkEvent 30 31 1 (Qz 8) (Qz 7) 1] (Some (20 # 4))).
  - valid_by_computation.
  - reflexivity.
  - left. reflexivity.
Defined.
